(** * Conway's Game of Life on a 25 x 25 canvas board (gameOfLife.js)

    A shallow embedding of the script: the global variables [board],
    [isPlaying], the play button and the canvas become one record that
    the functions of the script pass along; an access [board[x][y]] that
    hits an undefined column raises the TypeError of the JavaScript run
    time.  Arithmetic on pixel positions is read exactly, over the
    rationals (JavaScript computes it in binary floating point). *)

From Stdlib Require Import ZArith QArith Qround Lia.
From stdpp Require Import base option list list_numbers gmap strings.

Local Close Scope Q_scope.
Local Open Scope Z_scope.

(** ** Constants of the script *)

Definition NUM_TILES_WIDE : Z := 25.
Definition NUM_TILES_HIGH : Z := 25.

Definition DEAD : Z := 1.
Definition ALIVE : Z := 2.
Definition PENDING_DEAD : Z := 3.
Definition PENDING_ALIVE : Z := 4.

Definition DEAD_COLOR : string := "black".
Definition ALIVE_COLOR : string := "yellow".

(** ** Program state *)

(** One call of [context.fillRect] with the fill style in force. *)
Record rect : Type := FillRect
  { rect_style : string; rect_x : Q; rect_y : Q; rect_w : Q; rect_h : Q }.

(** [board] is an array of [NUM_TILES_WIDE] arrays; an inner array is an
    object whose integer keys hold numbers, a missing key reads as
    [undefined] ([None]) and an assignment to any key creates it.
    [isPlaying] is declared without a value and assigned booleans only;
    both tests of the script read [undefined] as false, so it is a
    boolean here.  [playButton] is the label of the play button.
    [writes] is the history of the assignments [board[x][y] = v], oldest
    first; [painted] the history of the rectangles filled on the canvas. *)
Record state : Type := State
  { board : list (gmap Z Z);
    isPlaying : bool;
    playButton : string;
    fillStyle : string;
    painted : list rect;
    writes : list (Z * Z * Z) }.

Definition set_board (b : list (gmap Z Z)) (s : state) : state :=
  State b (isPlaying s) (playButton s) (fillStyle s) (painted s) (writes s).
Definition set_isPlaying (p : bool) (s : state) : state :=
  State (board s) p (playButton s) (fillStyle s) (painted s) (writes s).
Definition set_playButton (v : string) (s : state) : state :=
  State (board s) (isPlaying s) v (fillStyle s) (painted s) (writes s).
Definition set_fillStyle (c : string) (s : state) : state :=
  State (board s) (isPlaying s) (playButton s) c (painted s) (writes s).
Definition add_painted (r : rect) (s : state) : state :=
  State (board s) (isPlaying s) (playButton s) (fillStyle s)
        (painted s ++ [r]) (writes s).
Definition add_write (w : Z * Z * Z) (s : state) : state :=
  State (board s) (isPlaying s) (playButton s) (fillStyle s) (painted s)
        (writes s ++ [w]).

(** The board built at load time (lines 56-63): [NUM_TILES_WIDE] columns
    without any element. *)
Definition new_board : list (gmap Z Z) :=
  replicate (Z.to_nat NUM_TILES_WIDE) (∅ : gmap Z Z).

(** ** Computations: state passing with exceptions *)

Inductive exn : Type := TypeError.

Inductive completion (A : Type) : Type :=
| Normal (a : A)
| Throw (e : exn).
Arguments Normal {A} a.
Arguments Throw {A} e.

Definition M (A : Type) : Type := state → completion A * state.

Definition ret {A} (a : A) : M A := λ s, (Normal a, s).

Definition bind {A B} (c : M A) (k : A → M B) : M B := λ s,
  match c s with
  | (Normal a, s') => k a s'
  | (Throw e, s') => (Throw e, s')
  end.

Notation "x <- c ;; k" := (bind c (λ x, k))
  (at level 100, c at next level, right associativity).
Notation "c ;; k" := (bind c (λ _, k))
  (at level 100, right associativity).

(** [for (var i = ...; ...; i++) body] over the values the counter takes. *)
Fixpoint for_each {A} (l : list A) (body : A → M unit) : M unit :=
  match l with
  | [] => ret tt
  | i :: l' => body i ;; for_each l' body
  end.

(** The same loop threading a local counter through its body. *)
Fixpoint for_acc {A B} (l : list A) (acc : B) (body : A → B → M B) : M B :=
  match l with
  | [] => ret acc
  | i :: l' => acc' <- body i acc ;; for_acc l' acc' body
  end.

(** JavaScript [v == n] for a board value [v] and a number [n]:
    [undefined] equals no number. *)
Definition js_eq (v : option Z) (n : Z) : bool :=
  match v with
  | Some m => m =? n
  | None => false
  end.

(** [board[x]]: the column at an index, [undefined] outside the array. *)
Definition column (x : Z) (b : list (gmap Z Z)) : option (gmap Z Z) :=
  if 0 <=? x then b !! Z.to_nat x else None.

(** The expression [board[x][y]]. *)
Definition board_get (x y : Z) : M (option Z) := λ s,
  match column x (board s) with
  | Some col => (Normal (col !! y), s)
  | None => (Throw TypeError, s)
  end.

(** The assignment [board[x][y] = v]. *)
Definition board_put (x y v : Z) : M unit := λ s,
  match column x (board s) with
  | Some col =>
      (Normal tt,
       add_write (x, y, v)
         (set_board (<[Z.to_nat x := <[y := v]> col]> (board s)) s))
  | None => (Throw TypeError, s)
  end.

Definition get_isPlaying : M bool := λ s, (Normal (isPlaying s), s).
Definition put_isPlaying (p : bool) : M unit := λ s,
  (Normal tt, set_isPlaying p s).
Definition put_playButton (v : string) : M unit := λ s,
  (Normal tt, set_playButton v s).

(** A mouse event, as far as the script reads it: the position of the
    pointer in pixels, relative to the canvas. *)
Record mouse_event : Type := MouseEvent { offsetX : Q; offsetY : Q }.

(** The object returned by [mousePositionToTile]. *)
Record tile : Type := Tile { xPos : Z; yPos : Z }.

(** What the page can ask of the script once [setup] has registered its
    listeners and its timer (lines 74-77). *)
Inductive command : Type :=
| MouseDown (event : mouse_event)
| PlayClick
| ResetClick
| TimerTick.

Section Script.

(** [canvas.width] and [canvas.height] come from the page.  The tile
    sizes and the quotients of [mousePositionToTile] are exact
    rationals here and rounded binary64 numbers in JavaScript; the two
    agree where the tile sizes are whole numbers of pixels and the
    mouse is on a whole pixel.  The statements below either take the
    tile as [mousePositionToTile] answers it, whatever it is, or are
    about such a canvas.  On a canvas of width or height zero the tile
    size is zero: JavaScript then answers an infinity or NaN, [Qdiv]
    answers 0. *)
Variables CANVAS_WIDTH CANVAS_HEIGHT : Z.

Definition TILE_WIDTH : Q := (inject_Z CANVAS_WIDTH / inject_Z NUM_TILES_WIDE)%Q.
Definition TILE_HEIGHT : Q := (inject_Z CANVAS_HEIGHT / inject_Z NUM_TILES_HIGH)%Q.

Definition drawTile (xPos yPos : Z) (color : string) : M unit := λ s,
  let s1 := set_fillStyle color s in
  (Normal tt,
   add_painted
     (FillRect (fillStyle s1)
               (inject_Z xPos * TILE_WIDTH)%Q (inject_Z yPos * TILE_HEIGHT)%Q
               (TILE_WIDTH - 1)%Q (TILE_HEIGHT - 1)%Q) s1).

Definition setTile (xPos yPos lifeStatus : Z) : M unit :=
  board_put xPos yPos lifeStatus ;;
  if lifeStatus =? DEAD then drawTile xPos yPos DEAD_COLOR
  else if lifeStatus =? ALIVE then drawTile xPos yPos ALIVE_COLOR
  else ret tt.

Definition clearBoard : M unit :=
  put_playButton "Play" ;;
  put_isPlaying false ;;
  for_each (seqZ 0 NUM_TILES_WIDE) (λ i,
    for_each (seqZ 0 NUM_TILES_HIGH) (λ j,
      setTile i j DEAD)).

Definition mousePositionToTile (xMousePos yMousePos : Q) : tile :=
  let xPos := Qfloor (xMousePos / TILE_WIDTH)%Q in
  let yPos := Qfloor (yMousePos / TILE_HEIGHT)%Q in
  Tile xPos yPos.

Definition changeTile (event : mouse_event) : M unit :=
  playing <- get_isPlaying ;;
  if negb playing then
    let mouseCoordinates :=
      mousePositionToTile (offsetX event) (offsetY event) in
    let xPos := xPos mouseCoordinates in
    let yPos := yPos mouseCoordinates in
    v <- board_get xPos yPos ;;
    if js_eq v DEAD then setTile xPos yPos ALIVE
    else setTile xPos yPos DEAD
  else ret tt.

Definition isTileAlive (xPos yPos : Z) : M bool :=
  v <- board_get xPos yPos ;;
  if js_eq v ALIVE then ret true
  else v' <- board_get xPos yPos ;; ret (js_eq v' PENDING_DEAD).

Definition getNumAliveNeighbors (xPos yPos : Z) : M Z :=
  for_acc (seqZ (xPos - 1) 3) 0 (λ i numAliveNeighbors,
    for_acc (seqZ (yPos - 1) 3) numAliveNeighbors (λ j numAliveNeighbors,
      if (0 <=? i) && (i <? NUM_TILES_WIDE) &&
         (0 <=? j) && (j <? NUM_TILES_HIGH) &&
         negb ((i =? xPos) && (j =? yPos))
      then
        alive <- isTileAlive i j ;;
        ret (if alive then numAliveNeighbors + 1 else numAliveNeighbors)
      else ret numAliveNeighbors)).

Definition refreshBoard : M unit :=
  for_each (seqZ 0 NUM_TILES_WIDE) (λ i,
    for_each (seqZ 0 NUM_TILES_HIGH) (λ j,
      v <- board_get i j ;;
      if js_eq v PENDING_DEAD then setTile i j DEAD
      else
        v' <- board_get i j ;;
        if js_eq v' PENDING_ALIVE then setTile i j ALIVE
        else ret tt)).

Definition playGame : M unit :=
  playing <- get_isPlaying ;;
  if playing then
    for_each (seqZ 0 NUM_TILES_WIDE) (λ i,
      for_each (seqZ 0 NUM_TILES_HIGH) (λ j,
        numAliveNeighbors <- getNumAliveNeighbors i j ;;
        v <- board_get i j ;;
        if js_eq v ALIVE &&
           ((numAliveNeighbors <? 2) || (numAliveNeighbors >? 3))
        then setTile i j PENDING_DEAD
        else
          v' <- board_get i j ;;
          if js_eq v' DEAD && (numAliveNeighbors =? 3)
          then setTile i j PENDING_ALIVE
          else ret tt)) ;;
    refreshBoard
  else ret tt.

Definition playOrPause : M unit :=
  playing <- get_isPlaying ;;
  if playing then
    put_playButton "Play" ;;
    put_isPlaying false
  else
    put_playButton "Pause" ;;
    put_isPlaying true.

(** [setup], as far as it acts on the state: the listeners it registers
    are the commands below. *)
Definition setup : M unit := clearBoard.

Definition handler (c : command) : M unit :=
  match c with
  | MouseDown event => changeTile event
  | PlayClick => playOrPause
  | ResetClick => clearBoard
  | TimerTick => playGame
  end.

(** The state a handler leaves, whether it returns or throws. *)
Definition dispatch (c : command) (s : state) : state := snd (handler c s).

Definition run_commands (cs : list command) (s : state) : state :=
  foldl (λ s c, dispatch c s) s cs.

(** ** Vocabulary of the statements *)

(** The value held at [board[x][y]]; [None] when the column or the
    element is undefined. *)
Definition cell (s : state) (x y : Z) : option Z :=
  match column x (board s) with
  | Some col => col !! y
  | None => None
  end.

Definition in_grid (x y : Z) : Prop :=
  (0 ≤ x < NUM_TILES_WIDE) ∧ (0 ≤ y < NUM_TILES_HIGH).

Definition in_gridb (x y : Z) : bool :=
  (0 <=? x) && (x <? NUM_TILES_WIDE) && (0 <=? y) && (y <? NUM_TILES_HIGH).

(** The outer array keeps the length it was created with. *)
Definition shaped (s : state) : Prop :=
  length (board s) = Z.to_nat NUM_TILES_WIDE.

(** Every tile of the grid is dead or alive: no tile is pending. *)
Definition settled (s : state) : Prop :=
  shaped s ∧
  ∀ x y, in_grid x y → cell s x y = Some DEAD ∨ cell s x y = Some ALIVE.

Definition all_cells : list (Z * Z) :=
  i ← seqZ 0 NUM_TILES_WIDE; pair i <$> seqZ 0 NUM_TILES_HIGH.

Definition settledb (s : state) : bool :=
  (length (board s) =? Z.to_nat NUM_TILES_WIDE)%nat &&
  forallb (λ p, js_eq (cell s p.1 p.2) DEAD || js_eq (cell s p.1 p.2) ALIVE)
          all_cells.

(** The tiles at Chebyshev distance 1 of [(x, y)] that lie on the grid. *)
Definition neighbors (x y : Z) : list (Z * Z) :=
  List.filter (λ p, in_gridb p.1 p.2)
    [ (x - 1, y - 1); (x - 1, y); (x - 1, y + 1);
      (x, y - 1);                 (x, y + 1);
      (x + 1, y - 1); (x + 1, y); (x + 1, y + 1) ].

(** How many neighbours of [(x, y)] satisfy [f]. *)
Definition count_neighbors (f : Z → Z → bool) (x y : Z) : Z :=
  Z.of_nat (length (List.filter (λ p, f p.1 p.2) (neighbors x y))).

(** What [isTileAlive] answers: alive or pending dead. *)
Definition alive_at (s : state) (x y : Z) : bool :=
  js_eq (cell s x y) ALIVE || js_eq (cell s x y) PENDING_DEAD.

(** The number of neighbours that are [ALIVE] in [s]. *)
Definition live_neighbors (s : state) (x y : Z) : Z :=
  count_neighbors (λ i j, js_eq (cell s i j) ALIVE) x y.

(** Position of a tile of the grid relative to its border. *)
Definition on_side_x (x : Z) : Prop := x = 0 ∨ x = NUM_TILES_WIDE - 1.
Definition on_side_y (y : Z) : Prop := y = 0 ∨ y = NUM_TILES_HIGH - 1.
Definition corner (x y : Z) : Prop := on_side_x x ∧ on_side_y y.
Definition edge (x y : Z) : Prop :=
  in_grid x y ∧
  ((on_side_x x ∧ ¬ on_side_y y) ∨ (¬ on_side_x x ∧ on_side_y y)).
Definition interior (x y : Z) : Prop :=
  (0 < x < NUM_TILES_WIDE - 1) ∧ (0 < y < NUM_TILES_HIGH - 1).

(** The value the scan of [playGame] leaves at a tile, from the state [s]
    before the scan. *)
Definition pending_mark (s : state) (x y : Z) : option Z :=
  let n := live_neighbors s x y in
  if js_eq (cell s x y) ALIVE && ((n <? 2) || (n >? 3)) then Some PENDING_DEAD
  else if js_eq (cell s x y) DEAD && (n =? 3) then Some PENDING_ALIVE
  else cell s x y.

(** The value [refreshBoard] leaves at a tile that held [v]. *)
Definition resolve (v : option Z) : option Z :=
  if js_eq v PENDING_DEAD then Some DEAD
  else if js_eq v PENDING_ALIVE then Some ALIVE
  else v.

(** Two states with the same board and the same [isPlaying]. *)
Definition same_core (s1 s2 : state) : Prop :=
  board s1 = board s2 ∧ isPlaying s1 = isPlaying s2.

(** [c] reads nothing but the board and [isPlaying]: from two states
    that agree on them it completes the same way, leaves states that
    agree on them, and adds the same writes and the same rectangles. *)
Definition uniform {A} (c : M A) : Prop :=
  ∀ s1 s2, same_core s1 s2 →
    ∃ w d,
      fst (c s1) = fst (c s2) ∧
      same_core (snd (c s1)) (snd (c s2)) ∧
      writes (snd (c s1)) = writes s1 ++ w ∧
      writes (snd (c s2)) = writes s2 ++ w ∧
      painted (snd (c s1)) = painted s1 ++ d ∧
      painted (snd (c s2)) = painted s2 ++ d.

(** The value a click stores in a tile that held [v]. *)
Definition flipped (v : option Z) : Z := if js_eq v DEAD then ALIVE else DEAD.

(** The rectangle [drawTile] fills for a tile. *)
Definition tile_rect (x y : Z) (color : string) : rect :=
  FillRect color (inject_Z x * TILE_WIDTH)%Q (inject_Z y * TILE_HEIGHT)%Q
           (TILE_WIDTH - 1)%Q (TILE_HEIGHT - 1)%Q.

(** What [setTile] paints for a life status. *)
Definition paint_of (x y v : Z) : list rect :=
  if v =? DEAD then [tile_rect x y DEAD_COLOR]
  else if v =? ALIVE then [tile_rect x y ALIVE_COLOR]
  else [].

(** The write [refreshBoard] makes at a tile that holds [v]. *)
Definition refresh_write (v : option Z) (x y : Z) : list (Z * Z * Z) :=
  if js_eq v PENDING_DEAD then [(x, y, DEAD)]
  else if js_eq v PENDING_ALIVE then [(x, y, ALIVE)]
  else [].

(** The colour of a tile that holds [v] after a tick. *)
Definition color_of (v : option Z) : string :=
  if js_eq v ALIVE then ALIVE_COLOR else DEAD_COLOR.

(** The rectangle due for a tile whose value differs between [s] and
    [s']: none when it is the same. *)
Definition repaint (s s' : state) (x y : Z) : list rect :=
  if decide (cell s' x y = cell s x y) then []
  else [tile_rect x y (color_of (cell s' x y))].

(** The play button shows what a click on it would do. *)
Definition label_ok (s : state) : Prop :=
  playButton s = if isPlaying s then "Pause" else "Play".

(** No tile of the grid is pending. *)
Definition no_pending (s : state) : Prop :=
  ∀ x y, in_grid x y →
    cell s x y ≠ Some PENDING_DEAD ∧ cell s x y ≠ Some PENDING_ALIVE.

(** Every alive tile has two or three alive neighbours and no dead tile
    has three. *)
Definition stable (s : state) : Prop :=
  settled s ∧
  ∀ x y, in_grid x y →
    (cell s x y = Some ALIVE → 2 ≤ live_neighbors s x y ≤ 3) ∧
    (cell s x y = Some DEAD → live_neighbors s x y ≠ 3).

Definition stableb (s : state) : bool :=
  settledb s &&
  forallb (λ p,
     let n := live_neighbors s p.1 p.2 in
     (negb (js_eq (cell s p.1 p.2) ALIVE) || ((2 <=? n) && (n <=? 3))) &&
     (negb (js_eq (cell s p.1 p.2) DEAD) || negb (n =? 3)))
    all_cells.

(** The write the scan of [playGame] makes at a tile, from the state
    before the scan. *)
Definition scan_write (s : state) (x y : Z) : list (Z * Z * Z) :=
  let n := live_neighbors s x y in
  if js_eq (cell s x y) ALIVE && ((n <? 2) || (n >? 3))
  then [(x, y, PENDING_DEAD)]
  else if js_eq (cell s x y) DEAD && (n =? 3) then [(x, y, PENDING_ALIVE)]
  else [].

(** What a run leaves alone besides the board. *)
Definition kept (s s' : state) : Prop :=
  isPlaying s' = isPlaying s ∧ playButton s' = playButton s.

(** What an assignment to [board[x][y]] leaves behind. *)
Definition written (x y v : Z) (s s' : state) : Prop :=
  shaped s' ∧ kept s s' ∧
  ∀ i j, cell s' i j = if decide (i = x ∧ j = y) then Some v else cell s i j.

(** ** Reading and writing the board *)

Lemma in_gridb_spec x y : in_gridb x y = true ↔ in_grid x y.
Proof.
  unfold in_gridb, in_grid.
  rewrite !andb_true_iff, !Z.leb_le, !Z.ltb_lt. tauto.
Qed.

Lemma column_is_Some s x :
  shaped s → 0 ≤ x < NUM_TILES_WIDE → is_Some (column x (board s)).
Proof.
  intros Hs Hx. unfold column.
  rewrite (proj2 (Z.leb_le 0 x)) by lia.
  apply lookup_lt_is_Some. rewrite Hs. lia.
Qed.

Lemma column_None b x :
  length b = Z.to_nat NUM_TILES_WIDE →
  ¬ (0 ≤ x < NUM_TILES_WIDE) → column x b = None.
Proof.
  intros Hb Hx. unfold column.
  destruct (Z.leb_spec 0 x); [|done].
  apply lookup_ge_None. rewrite Hb. lia.
Qed.

Lemma column_insert b x c0 c i :
  column x b = Some c0 →
  column i (<[Z.to_nat x := c]> b) = if decide (i = x) then Some c else column i b.
Proof.
  unfold column. intros Hx.
  destruct (Z.leb_spec 0 x) as [Hx0|]; [|done].
  apply lookup_lt_Some in Hx.
  destruct (Z.leb_spec 0 i) as [Hi0|Hi0].
  - case_decide as Hix.
    + subst i. by apply list_lookup_insert_eq.
    + apply list_lookup_insert_ne. lia.
  - case_decide; [lia|done].
Qed.

Lemma board_get_run s x y :
  shaped s → 0 ≤ x < NUM_TILES_WIDE →
  board_get x y s = (Normal (cell s x y), s).
Proof.
  intros Hs Hx. unfold board_get, cell.
  by destruct (column_is_Some s x Hs Hx) as [c ->].
Qed.

Lemma board_get_throw s x y :
  shaped s → ¬ (0 ≤ x < NUM_TILES_WIDE) →
  board_get x y s = (Throw TypeError, s).
Proof.
  intros Hs Hx. unfold board_get. by rewrite (column_None _ _ Hs Hx).
Qed.

Lemma board_put_run s x y v :
  shaped s → 0 ≤ x < NUM_TILES_WIDE →
  ∃ s', board_put x y v s = (Normal tt, s') ∧ written x y v s s' ∧
        writes s' = writes s ++ [(x, y, v)] ∧
        painted s' = painted s ∧ fillStyle s' = fillStyle s.
Proof.
  intros Hs Hx. unfold board_put.
  destruct (column_is_Some s x Hs Hx) as [c Hc]. rewrite Hc.
  eexists. split; [reflexivity|]. split; [|done].
  split; [|split; [done|]].
  - unfold shaped. simpl. by rewrite length_insert.
  - intros i j. unfold cell at 1. simpl.
    rewrite (column_insert _ _ _ _ _ Hc).
    destruct (decide (i = x)) as [->|Hne].
    + destruct (decide (j = y)) as [->|Hne].
      * rewrite lookup_insert_eq. by rewrite decide_True.
      * rewrite lookup_insert_ne by done.
        rewrite decide_False by tauto. unfold cell. by rewrite Hc.
    + by rewrite decide_False by tauto.
Qed.

Lemma board_put_throw s x y v :
  shaped s → ¬ (0 ≤ x < NUM_TILES_WIDE) →
  board_put x y v s = (Throw TypeError, s).
Proof.
  intros Hs Hx. unfold board_put. by rewrite (column_None _ _ Hs Hx).
Qed.

Lemma setTile_run s x y v :
  shaped s → 0 ≤ x < NUM_TILES_WIDE →
  ∃ s', setTile x y v s = (Normal tt, s') ∧ written x y v s s' ∧
        writes s' = writes s ++ [(x, y, v)].
Proof.
  intros Hs Hx. unfold setTile, bind.
  destruct (board_put_run s x y v Hs Hx) as (s1 & -> & Hw & Hl & _).
  destruct (v =? DEAD); [|destruct (v =? ALIVE)];
    (eexists; split; [reflexivity|]; split; [exact Hw|exact Hl]).
Qed.

Lemma setTile_throw s x y v :
  shaped s → ¬ (0 ≤ x < NUM_TILES_WIDE) →
  setTile x y v s = (Throw TypeError, s).
Proof.
  intros Hs Hx. unfold setTile, bind. by rewrite board_put_throw.
Qed.

Lemma kept_refl s : kept s s.
Proof. done. Qed.

Lemma kept_trans s1 s2 s3 : kept s1 s2 → kept s2 s3 → kept s1 s3.
Proof. unfold kept. intros [-> ->] [-> ->]. done. Qed.

(** ** Loops *)

Lemma for_each_app {A} (l1 l2 : list A) (body : A → M unit) s :
  for_each (l1 ++ l2) body s = (for_each l1 body ;; for_each l2 body) s.
Proof.
  revert s. induction l1 as [|a l1 IH]; intros s; [done|].
  simpl. unfold bind in *.
  destruct (body a s) as [[[]|e] s1]; [|done]. apply IH.
Qed.

Lemma for_each_fmap {A B} (g : A → B) (l : list A) (body : B → M unit) s :
  for_each (g <$> l) body s = for_each l (λ a, body (g a)) s.
Proof.
  revert s. induction l as [|a l IH]; intros s; [done|].
  simpl. unfold bind.
  destruct (body (g a) s) as [[[]|e] s1]; [|done]. apply IH.
Qed.

(** Two nested loops visit the pairs of their counters in row order. *)
Lemma for_each_nested {A B} (xs : list A) (ys : list B)
    (body : A → B → M unit) s :
  for_each xs (λ i, for_each ys (λ j, body i j)) s =
  for_each (i ← xs; pair i <$> ys) (λ p, body p.1 p.2) s.
Proof.
  revert s. induction xs as [|x xs IH]; intros s; [done|].
  rewrite bind_cons, for_each_app. simpl. unfold bind.
  rewrite for_each_fmap. simpl.
  destruct (for_each ys _ s) as [[[]|e] s1]; [|done]. apply IH.
Qed.

Lemma elem_of_all_cells i j : (i, j) ∈ all_cells ↔ in_grid i j.
Proof.
  unfold all_cells, in_grid. rewrite list_elem_of_bind. split.
  - intros (x & Hj & Hx). apply list_elem_of_fmap in Hj as (y & Heq & Hy).
    inversion Heq; subst. apply elem_of_seqZ in Hx, Hy. lia.
  - intros [Hi Hj]. exists i. split.
    + apply list_elem_of_fmap. exists j. split; [done|].
      apply elem_of_seqZ. lia.
    + apply elem_of_seqZ. lia.
Qed.

Lemma NoDup_all_cells : NoDup all_cells.
Proof.
  unfold all_cells. apply NoDup_bind.
  - intros x1 x2 [a b] _ _ H1 H2.
    apply list_elem_of_fmap in H1 as (? & ? & _).
    apply list_elem_of_fmap in H2 as (? & ? & _). congruence.
  - intros x _. apply NoDup_fmap_2; [|apply NoDup_seqZ].
    intros ???. congruence.
  - apply NoDup_seqZ.
Qed.

(** A loop over distinct tiles of the grid whose body rewrites its own
    tile only: the tiles visited end at [goal], the others keep their
    value.  [P] is what every step re-establishes. *)
Lemma for_each_cells (body : Z * Z → M unit) (P : state → Prop)
    (orig goal : Z → Z → option Z) :
  (∀ s i j, shaped s → P s → in_grid i j → cell s i j = orig i j →
     ∃ s', body (i, j) s = (Normal tt, s') ∧ shaped s' ∧ kept s s' ∧ P s' ∧
       ∀ a b, cell s' a b =
              if decide (a = i ∧ b = j) then goal i j else cell s a b) →
  ∀ l, NoDup l → (∀ i j, (i, j) ∈ l → in_grid i j) →
  ∀ s, shaped s → P s → (∀ i j, (i, j) ∈ l → cell s i j = orig i j) →
  ∃ s', for_each l body s = (Normal tt, s') ∧ shaped s' ∧ kept s s' ∧ P s' ∧
    ∀ a b, cell s' a b = if decide ((a, b) ∈ l) then goal a b else cell s a b.
Proof.
  intros Hbody l. induction l as [|[i j] l IH]; intros Hnd Hin s Hs HP Ho.
  - exists s. split; [done|]. split; [done|]. split; [done|]. split; [done|].
    intros a b. rewrite decide_False; [done|]. apply not_elem_of_nil.
  - apply NoDup_cons in Hnd as [Hfresh Hnd].
    destruct (Hbody s i j) as (s1 & Hrun & Hs1 & Hk1 & HP1 & Hc1); auto.
    { apply Hin. left. }
    { apply Ho. left. }
    destruct (IH Hnd) with (s := s1) as (s2 & Hrun2 & Hs2 & Hk2 & HP2 & Hc2);
      auto.
    { intros a b Hab. apply Hin. by right. }
    { intros a b Hab. rewrite Hc1. rewrite decide_False.
      - apply Ho. by right.
      - intros [-> ->]. done. }
    exists s2. split.
    { simpl. unfold bind. by rewrite Hrun. }
    split; [done|]. split; [by eapply kept_trans|]. split; [done|].
    intros a b. rewrite Hc2, Hc1.
    destruct (decide ((a, b) ∈ l)) as [Hl|Hl].
    + rewrite decide_True; [done|]. by right.
    + destruct (decide (a = i ∧ b = j)) as [[-> ->]|Hne].
      * rewrite decide_True; [done|]. left.
      * rewrite decide_False; [done|].
        intros [Heq|?]%elem_of_cons; [|done]. inversion Heq. tauto.
Qed.

(** ** Liveness and neighbour count *)

Lemma js_eq_true v n : js_eq v n = true ↔ v = Some n.
Proof.
  destruct v as [m|]; simpl; [|done].
  rewrite Z.eqb_eq. split; congruence.
Qed.

Lemma isTileAlive_run s x y :
  shaped s → 0 ≤ x < NUM_TILES_WIDE →
  isTileAlive x y s = (Normal (alive_at s x y), s).
Proof.
  intros Hs Hx. unfold isTileAlive, bind, alive_at.
  rewrite board_get_run by done.
  destruct (js_eq (cell s x y) ALIVE); [done|].
  by rewrite board_get_run by done.
Qed.

Lemma seqZ_around m : seqZ (m - 1) 3 = [m - 1; m; m + 1].
Proof.
  unfold seqZ. simpl.
  replace (Z.of_nat 0 + (m - 1)) with (m - 1) by lia.
  replace (Z.of_nat 1 + (m - 1)) with m by lia.
  replace (Z.of_nat 2 + (m - 1)) with (m + 1) by lia. done.
Qed.

(** One turn of the inner loop of [getNumAliveNeighbors]. *)
Lemma neighbor_turn s x y i j n :
  shaped s →
  (if (0 <=? i) && (i <? NUM_TILES_WIDE) &&
      (0 <=? j) && (j <? NUM_TILES_HIGH) &&
      negb ((i =? x) && (j =? y))
   then alive <- isTileAlive i j ;; ret (if alive then n + 1 else n)
   else ret n) s =
  (Normal (n + (if in_gridb i j && negb ((i =? x) && (j =? y)) && alive_at s i j
                then 1 else 0)), s).
Proof.
  intros Hs. fold (in_gridb i j).
  destruct (in_gridb i j) eqn:Hg; simpl.
  - apply in_gridb_spec in Hg as [Hi _].
    destruct (negb _); simpl.
    + unfold bind. rewrite isTileAlive_run by done.
      unfold ret. by destruct (alive_at s i j); rewrite ?Z.add_0_r.
    + unfold ret. by rewrite Z.add_0_r.
  - unfold ret. by rewrite Z.add_0_r.
Qed.

Lemma count_cons (f : Z → Z → bool) (g : Z * Z → bool) p l :
  Z.of_nat (length (List.filter (λ q, f q.1 q.2) (List.filter g (p :: l)))) =
  (if g p && f p.1 p.2 then 1 else 0) +
  Z.of_nat (length (List.filter (λ q, f q.1 q.2) (List.filter g l))).
Proof.
  simpl. destruct (g p); simpl; [|done].
  destruct (f p.1 p.2); simpl; lia.
Qed.

Lemma for_acc_cons {A B} (i : A) l (acc : B) body s :
  for_acc (i :: l) acc body s =
  match body i acc s with
  | (Normal a, s') => for_acc l a body s'
  | (Throw e, s') => (Throw e, s')
  end.
Proof. done. Qed.

(** One row of the scan of [getNumAliveNeighbors]. *)
Lemma neighbor_row s x y i n :
  shaped s →
  for_acc [y - 1; y; y + 1] n (λ j numAliveNeighbors,
      if (0 <=? i) && (i <? NUM_TILES_WIDE) &&
         (0 <=? j) && (j <? NUM_TILES_HIGH) &&
         negb ((i =? x) && (j =? y))
      then
        alive <- isTileAlive i j ;;
        ret (if alive then numAliveNeighbors + 1 else numAliveNeighbors)
      else ret numAliveNeighbors) s =
  (Normal
     (n +
      (if in_gridb i (y - 1) && negb ((i =? x) && (y - 1 =? y)) &&
          alive_at s i (y - 1) then 1 else 0) +
      (if in_gridb i y && negb ((i =? x) && (y =? y)) &&
          alive_at s i y then 1 else 0) +
      (if in_gridb i (y + 1) && negb ((i =? x) && (y + 1 =? y)) &&
          alive_at s i (y + 1) then 1 else 0)), s).
Proof.
  intros Hs.
  do 3 (rewrite for_acc_cons; cbv beta; rewrite neighbor_turn by done;
        cbv iota).
  done.
Qed.

Lemma getNumAliveNeighbors_run s x y :
  shaped s →
  getNumAliveNeighbors x y s = (Normal (count_neighbors (alive_at s) x y), s).
Proof.
  intros Hs. unfold getNumAliveNeighbors.
  rewrite !seqZ_around.
  do 3 (rewrite for_acc_cons; cbv beta; rewrite neighbor_row by done;
        cbv iota).
  cbn [for_acc]. unfold ret. f_equal. f_equal.
  unfold count_neighbors, neighbors. rewrite !count_cons. simpl.
  rewrite !Z.eqb_refl.
  rewrite !(proj2 (Z.eqb_neq (x - 1) x)), !(proj2 (Z.eqb_neq (x + 1) x)),
    !(proj2 (Z.eqb_neq (y - 1) y)), !(proj2 (Z.eqb_neq (y + 1) y)) by lia.
  simpl. rewrite !andb_true_r, !andb_false_r. simpl. lia.
Qed.

Lemma in_gridb_false x y : in_gridb x y = false ↔ ¬ in_grid x y.
Proof. rewrite <- in_gridb_spec. by destruct (in_gridb x y). Qed.

Lemma elem_of_neighbors x y i j :
  (i, j) ∈ neighbors x y ↔
  in_grid i j ∧ Z.max (Z.abs (i - x)) (Z.abs (j - y)) = 1.
Proof.
  unfold neighbors. rewrite list_elem_of_In, filter_In, in_gridb_spec.
  simpl. split.
  - intros [Hin Hg]. split; [done|].
    repeat (destruct Hin as [Hin|Hin]; [inversion Hin; subst; lia|]).
    done.
  - intros [Hg Hd]. split; [|done].
    assert (i = x - 1 ∨ i = x ∨ i = x + 1) as Hi by lia.
    assert (j = y - 1 ∨ j = y ∨ j = y + 1) as Hj by lia.
    destruct Hi as [-> | [-> | ->]], Hj as [-> | [-> | ->]]; auto 12; lia.
Qed.

Lemma neighbors_in_grid x y i j : (i, j) ∈ neighbors x y → in_grid i j.
Proof. intros H. by apply elem_of_neighbors in H as [? _]. Qed.

Lemma count_neighbors_ext f g x y :
  (∀ i j, (i, j) ∈ neighbors x y → f i j = g i j) →
  count_neighbors f x y = count_neighbors g x y.
Proof.
  intros H. unfold count_neighbors. f_equal. f_equal.
  apply filter_ext_in. intros [i j] Hin. apply H. by apply list_elem_of_In.
Qed.

Lemma count_neighbors_bounds f x y :
  0 ≤ count_neighbors f x y ≤ Z.of_nat (length (neighbors x y)).
Proof.
  unfold count_neighbors.
  pose proof (filter_length_le (λ p, f p.1 p.2) (neighbors x y)). lia.
Qed.

Lemma neighbors_length_le x y : (length (neighbors x y) ≤ 8)%nat.
Proof.
  unfold neighbors.
  etransitivity; [apply filter_length_le|]. done.
Qed.

(** Settles every test [in_gridb a b] of the goal that linear
    arithmetic decides. *)
Ltac decide_grid :=
  repeat match goal with
  | |- context [in_gridb ?a ?b] =>
      first
        [ rewrite (proj2 (in_gridb_spec a b)) by (unfold in_grid; lia)
        | rewrite (proj2 (in_gridb_false a b)) by (unfold in_grid; lia) ]
  end.

Lemma neighbors_length_corner x y :
  corner x y → length (neighbors x y) = 3%nat.
Proof.
  unfold corner, on_side_x, on_side_y.
  intros [[-> | ->] [-> | ->]]; reflexivity.
Qed.

Lemma neighbors_length_edge x y :
  edge x y → length (neighbors x y) = 5%nat.
Proof.
  unfold edge, on_side_x, on_side_y, neighbors.
  pose proof (eq_refl : NUM_TILES_WIDE = 25) as HW.
  pose proof (eq_refl : NUM_TILES_HIGH = 25) as HH.
  intros [[Hx Hy] [[[Hs | Hs] Hn] | [Hn [Hs | Hs]]]];
    cbn [List.filter fst snd]; decide_grid; reflexivity.
Qed.

Lemma neighbors_length_interior x y :
  interior x y → length (neighbors x y) = 8%nat.
Proof.
  unfold interior, neighbors. intros [Hx Hy].
  cbn [List.filter fst snd]. decide_grid. reflexivity.
Qed.

(** ** The loops over the whole grid *)

Lemma for_all_cells (body : Z → Z → M unit) (P : state → Prop)
    (orig goal : Z → Z → option Z) :
  (∀ s i j, shaped s → P s → in_grid i j → cell s i j = orig i j →
     ∃ s', body i j s = (Normal tt, s') ∧ shaped s' ∧ kept s s' ∧ P s' ∧
       ∀ a b, cell s' a b =
              if decide (a = i ∧ b = j) then goal i j else cell s a b) →
  ∀ s, shaped s → P s → (∀ i j, in_grid i j → cell s i j = orig i j) →
  ∃ s',
    for_each (seqZ 0 NUM_TILES_WIDE) (λ i,
      for_each (seqZ 0 NUM_TILES_HIGH) (λ j, body i j)) s = (Normal tt, s') ∧
    shaped s' ∧ kept s s' ∧
    ∀ a b, cell s' a b = if decide (in_grid a b) then goal a b else cell s a b.
Proof.
  intros Hbody s Hs HP Ho. rewrite for_each_nested. fold all_cells.
  destruct (for_each_cells (λ p, body p.1 p.2) P orig goal Hbody
              all_cells NoDup_all_cells) with (s := s)
    as (s' & Hrun & Hs' & Hk & _ & Hc); auto.
  { intros i j. apply elem_of_all_cells. }
  { intros i j Hin. apply Ho. by apply elem_of_all_cells. }
  exists s'. split; [done|]. split; [done|]. split; [done|].
  intros a b. rewrite Hc.
  destruct (decide (in_grid a b)) as [Hg|Hg].
  - rewrite decide_True; [done|]. by apply elem_of_all_cells.
  - rewrite decide_False; [done|]. by rewrite elem_of_all_cells.
Qed.

Lemma clear_loops_run s :
  shaped s →
  ∃ s',
    for_each (seqZ 0 NUM_TILES_WIDE) (λ i,
      for_each (seqZ 0 NUM_TILES_HIGH) (λ j,
        setTile i j DEAD)) s = (Normal tt, s') ∧
    shaped s' ∧ kept s s' ∧
    ∀ a b, cell s' a b = if decide (in_grid a b) then Some DEAD else cell s a b.
Proof.
  intros Hs.
  apply (for_all_cells _ (λ _, True) (cell s) (λ _ _, Some DEAD)); auto.
  intros t i j Ht _ [Hi _] _.
  destruct (setTile_run t i j DEAD Ht Hi) as (t' & Hrun & (? & ? & ?) & _).
  by exists t'.
Qed.

Lemma alive_at_settled s x y :
  cell s x y = Some DEAD ∨ cell s x y = Some ALIVE →
  alive_at s x y = js_eq (cell s x y) ALIVE.
Proof. unfold alive_at. by intros [-> | ->]. Qed.

Lemma scan_run s0 :
  settled s0 →
  ∃ s1,
    for_each (seqZ 0 NUM_TILES_WIDE) (λ i,
      for_each (seqZ 0 NUM_TILES_HIGH) (λ j,
        numAliveNeighbors <- getNumAliveNeighbors i j ;;
        v <- board_get i j ;;
        if js_eq v ALIVE &&
           ((numAliveNeighbors <? 2) || (numAliveNeighbors >? 3))
        then setTile i j PENDING_DEAD
        else
          v' <- board_get i j ;;
          if js_eq v' DEAD && (numAliveNeighbors =? 3)
          then setTile i j PENDING_ALIVE
          else ret tt)) s0 = (Normal tt, s1) ∧
    shaped s1 ∧ kept s0 s1 ∧
    ∀ a b, cell s1 a b =
           if decide (in_grid a b) then pending_mark s0 a b else cell s0 a b.
Proof.
  intros [Hs0 Hset].
  apply (for_all_cells _
           (λ s, ∀ a b, in_grid a b →
                        alive_at s a b = js_eq (cell s0 a b) ALIVE)
           (cell s0) (pending_mark s0)); auto.
  2:{ intros a b Hab. by apply alive_at_settled, Hset. }
  intros s i j Hs HP Hg Ho.
  unfold bind. rewrite getNumAliveNeighbors_run by done.
  rewrite board_get_run by (done || apply Hg).
  assert (count_neighbors (alive_at s) i j = live_neighbors s0 i j) as ->.
  { apply count_neighbors_ext. intros a b Hab. apply HP.
    by eapply neighbors_in_grid. }
  rewrite Ho. unfold pending_mark. cbv zeta.
  destruct (js_eq (cell s0 i j) ALIVE && _) eqn:E1.
  - apply andb_true_iff in E1 as [E1 _].
    destruct (setTile_run s i j PENDING_DEAD Hs (proj1 Hg))
      as (s' & -> & (Hs' & Hk' & Hc') & _).
    exists s'. split; [done|]. split; [done|]. split; [done|].
    split; [|done].
    intros a b Hab. unfold alive_at. rewrite Hc'.
    destruct (decide (a = i ∧ b = j)) as [[-> ->]|Hne].
    + by rewrite E1.
    + by apply HP.
  - rewrite board_get_run by (done || apply Hg). rewrite Ho.
    destruct (js_eq (cell s0 i j) DEAD && _) eqn:E2.
    + apply andb_true_iff in E2 as [E2 _]. apply js_eq_true in E2.
      destruct (setTile_run s i j PENDING_ALIVE Hs (proj1 Hg))
        as (s' & -> & (Hs' & Hk' & Hc') & _).
      exists s'. split; [done|]. split; [done|]. split; [done|].
      split; [|done].
      intros a b Hab. unfold alive_at. rewrite Hc'.
      destruct (decide (a = i ∧ b = j)) as [[-> ->]|Hne].
      * by rewrite E2.
      * by apply HP.
    + exists s. split; [done|]. split; [done|]. split; [done|].
      split; [done|].
      intros a b. destruct (decide (a = i ∧ b = j)) as [[-> ->]|Hne]; done.
Qed.

Lemma refreshBoard_run s1 :
  shaped s1 →
  ∃ s2, refreshBoard s1 = (Normal tt, s2) ∧ shaped s2 ∧ kept s1 s2 ∧
    ∀ a b, cell s2 a b =
           if decide (in_grid a b) then resolve (cell s1 a b) else cell s1 a b.
Proof.
  intros Hs1. unfold refreshBoard.
  apply (for_all_cells _ (λ _, True) (cell s1) (λ a b, resolve (cell s1 a b)));
    auto.
  intros s i j Hs _ [Hi _] Ho.
  unfold bind, resolve. rewrite board_get_run by done. rewrite Ho.
  destruct (js_eq (cell s1 i j) PENDING_DEAD).
  - destruct (setTile_run s i j DEAD Hs Hi) as (s' & -> & (? & ? & ?) & _).
    by exists s'.
  - rewrite board_get_run by done. rewrite Ho.
    destruct (js_eq (cell s1 i j) PENDING_ALIVE).
    + destruct (setTile_run s i j ALIVE Hs Hi) as (s' & -> & (? & ? & ?) & _).
      by exists s'.
    + exists s. split; [done|]. split; [done|]. split; [done|].
      split; [done|].
      intros a b. destruct (decide (a = i ∧ b = j)) as [[-> ->]|Hne]; done.
Qed.

(** ** One tick *)

Lemma bind_Normal {A B} (c : M A) (k : A → M B) s a s' :
  c s = (Normal a, s') → bind c k s = k a s'.
Proof. intros H. unfold bind. by rewrite H. Qed.

Lemma playGame_run s :
  settled s → isPlaying s = true →
  ∃ s', playGame s = (Normal tt, s') ∧ shaped s' ∧ kept s s' ∧
    ∀ a b, cell s' a b =
           if decide (in_grid a b) then resolve (pending_mark s a b)
           else cell s a b.
Proof.
  intros Hset Hp. unfold playGame.
  rewrite (bind_Normal get_isPlaying _ s (isPlaying s) s eq_refl), Hp.
  destruct (scan_run s Hset) as (s1 & Hrun1 & Hs1 & Hk1 & Hc1).
  rewrite (bind_Normal _ _ _ _ _ Hrun1).
  destruct (refreshBoard_run s1 Hs1) as (s2 & Hrun2 & Hs2 & Hk2 & Hc2).
  exists s2. split; [done|]. split; [done|].
  split; [by eapply kept_trans|].
  intros a b. rewrite Hc2, Hc1. by destruct (decide (in_grid a b)).
Qed.

Lemma playGame_paused s : isPlaying s = false → playGame s = (Normal tt, s).
Proof.
  intros Hp. unfold playGame.
  by rewrite (bind_Normal get_isPlaying _ s (isPlaying s) s eq_refl), Hp.
Qed.

Lemma resolve_mark_settled s x y :
  cell s x y = Some DEAD ∨ cell s x y = Some ALIVE →
  resolve (pending_mark s x y) = Some DEAD ∨
  resolve (pending_mark s x y) = Some ALIVE.
Proof.
  unfold pending_mark. cbv zeta.
  intros [-> | ->]; simpl;
    repeat match goal with |- context [if ?b then _ else _] => destruct b end;
    auto.
Qed.

Lemma settledb_sound s : settledb s = true → settled s.
Proof.
  unfold settledb. rewrite andb_true_iff, Nat.eqb_eq, forallb_forall.
  intros [Hlen Hall]. split; [done|].
  intros x y Hg. apply elem_of_all_cells, list_elem_of_In in Hg.
  apply Hall in Hg. simpl in Hg.
  apply orb_true_iff in Hg. by rewrite !js_eq_true in Hg.
Qed.

(** ** Mouse clicks *)

Lemma changeTile_playing s e :
  isPlaying s = true → changeTile e s = (Normal tt, s).
Proof.
  intros Hp. unfold changeTile.
  by rewrite (bind_Normal get_isPlaying _ s (isPlaying s) s eq_refl), Hp.
Qed.

Lemma changeTile_paused s e :
  shaped s → isPlaying s = false →
  0 ≤ xPos (mousePositionToTile (offsetX e) (offsetY e)) < NUM_TILES_WIDE →
  let x := xPos (mousePositionToTile (offsetX e) (offsetY e)) in
  let y := yPos (mousePositionToTile (offsetX e) (offsetY e)) in
  ∃ s', changeTile e s = (Normal tt, s') ∧
    written x y (flipped (cell s x y)) s s' ∧
    writes s' = writes s ++ [(x, y, flipped (cell s x y))].
Proof.
  intros Hs Hp Hx x y. unfold changeTile.
  rewrite (bind_Normal get_isPlaying _ s (isPlaying s) s eq_refl), Hp.
  cbv zeta. cbn [negb]. fold x y.
  rewrite (bind_Normal _ _ _ _ _ (board_get_run s x y Hs Hx)).
  unfold flipped. destruct (js_eq (cell s x y) DEAD); by apply setTile_run.
Qed.

Lemma changeTile_paused_throw s e :
  shaped s → isPlaying s = false →
  ¬ (0 ≤ xPos (mousePositionToTile (offsetX e) (offsetY e)) < NUM_TILES_WIDE) →
  changeTile e s = (Throw TypeError, s).
Proof.
  intros Hs Hp Hx. unfold changeTile.
  rewrite (bind_Normal get_isPlaying _ s (isPlaying s) s eq_refl), Hp.
  cbv zeta. cbn [negb]. unfold bind. by rewrite board_get_throw.
Qed.

(** ** The tiles stay dead or alive *)

Lemma written_settled x y v s s' :
  settled s → written x y v s s' → v = DEAD ∨ v = ALIVE → settled s'.
Proof.
  intros [_ Hset] (Hs' & _ & Hc) Hv. split; [done|].
  intros i j Hg. rewrite Hc. case_decide; [|by apply Hset].
  destruct Hv as [-> | ->]; auto.
Qed.

Lemma changeTile_settled e s : settled s → settled (snd (changeTile e s)).
Proof.
  intros Hset. destruct (isPlaying s) eqn:Hp.
  { by rewrite changeTile_playing. }
  destruct (decide (0 ≤ xPos (mousePositionToTile (offsetX e) (offsetY e))
                    < NUM_TILES_WIDE)) as [Hx|Hx].
  - destruct (changeTile_paused s e (proj1 Hset) Hp Hx) as (s' & -> & Hw & _).
    simpl. eapply written_settled; [done..|].
    unfold flipped. destruct (js_eq _ _); auto.
  - by rewrite changeTile_paused_throw by (done || apply Hset).
Qed.

Lemma playOrPause_board s : board (snd (playOrPause s)) = board s.
Proof.
  unfold playOrPause.
  rewrite (bind_Normal get_isPlaying _ s (isPlaying s) s eq_refl).
  by destruct (isPlaying s).
Qed.

Lemma settled_board s s' : board s' = board s → settled s → settled s'.
Proof.
  unfold settled, shaped, cell. intros ->. done.
Qed.

Lemma clearBoard_settled s : shaped s → settled (snd (clearBoard s)).
Proof.
  intros Hs. unfold clearBoard.
  rewrite (bind_Normal (put_playButton "Play") _ s tt _ eq_refl).
  rewrite (bind_Normal (put_isPlaying false) _ _ tt _ eq_refl).
  destruct (clear_loops_run (set_isPlaying false (set_playButton "Play" s)))
    as (s' & -> & Hs' & _ & Hc); [done|].
  split; [done|]. intros x y Hg. left. by rewrite Hc, decide_True.
Qed.

Lemma playGame_settled s : settled s → settled (snd (playGame s)).
Proof.
  intros Hset. destruct (isPlaying s) eqn:Hp.
  - destruct (playGame_run s Hset Hp) as (s' & -> & Hs' & _ & Hc).
    split; [done|]. intros x y Hg. simpl. rewrite Hc, decide_True by done.
    by apply resolve_mark_settled, Hset.
  - by rewrite playGame_paused.
Qed.

Lemma dispatch_settled c s : settled s → settled (dispatch c s).
Proof.
  intros Hset. unfold dispatch. destruct c as [e| | |]; simpl.
  - by apply changeTile_settled.
  - eapply settled_board; [apply playOrPause_board|done].
  - apply clearBoard_settled, Hset.
  - by apply playGame_settled.
Qed.

Lemma run_commands_settled cs s : settled s → settled (run_commands cs s).
Proof.
  revert s. induction cs as [|c cs IH]; intros s Hset; [done|].
  simpl. by apply IH, dispatch_settled.
Qed.

(** ** What a run depends on *)

Lemma uniform_ret {A} (a : A) : uniform (ret a).
Proof.
  intros s1 s2 Hc. exists [], []. simpl. by rewrite !app_nil_r.
Qed.

Lemma uniform_bind {A B} (c : M A) (k : A → M B) :
  uniform c → (∀ a, uniform (k a)) → uniform (bind c k).
Proof.
  intros Hc Hk s1 s2 Hs.
  destruct (Hc s1 s2 Hs) as (w & d & Hr & Hcore & Hw1 & Hw2 & Hd1 & Hd2).
  unfold bind.
  destruct (c s1) as [r1 t1], (c s2) as [r2 t2]. simpl in *. subst r2.
  destruct r1 as [a|e].
  - destruct (Hk a t1 t2 Hcore)
      as (w' & d' & Hr' & Hcore' & Hw1' & Hw2' & Hd1' & Hd2').
    exists (w ++ w'), (d ++ d').
    rewrite Hw1', Hw2', Hd1', Hd2', Hw1, Hw2, Hd1, Hd2, !app_assoc. done.
  - exists w, d. done.
Qed.

Lemma uniform_for_each {A} (l : list A) (body : A → M unit) :
  (∀ i, uniform (body i)) → uniform (for_each l body).
Proof.
  intros Hb. induction l as [|i l IH]; simpl.
  - apply uniform_ret.
  - apply uniform_bind; [apply Hb|]. by intros _.
Qed.

Lemma uniform_for_acc {A B} (l : list A) (acc : B) (body : A → B → M B) :
  (∀ i a, uniform (body i a)) → uniform (for_acc l acc body).
Proof.
  intros Hb. revert acc. induction l as [|i l IH]; intros acc; simpl.
  - apply uniform_ret.
  - apply uniform_bind; [apply Hb|]. apply IH.
Qed.

Lemma uniform_get_isPlaying : uniform get_isPlaying.
Proof.
  intros s1 s2 [Hb Hp]. exists [], []. simpl. rewrite !app_nil_r, Hp. done.
Qed.

Lemma uniform_board_get x y : uniform (board_get x y).
Proof.
  intros s1 s2 [Hb Hp]. exists [], []. unfold board_get. rewrite Hb.
  destruct (column x (board s2)); simpl; by rewrite !app_nil_r.
Qed.

Lemma uniform_board_put x y v : uniform (board_put x y v).
Proof.
  intros s1 s2 [Hb Hp]. unfold board_put. rewrite Hb.
  destruct (column x (board s2)); simpl.
  - exists [(x, y, v)], []. by rewrite !app_nil_r.
  - exists [], []. by rewrite !app_nil_r.
Qed.

Lemma uniform_drawTile x y color : uniform (drawTile x y color).
Proof.
  intros s1 s2 Hs. eexists [], [_]. simpl. by rewrite !app_nil_r.
Qed.

Lemma uniform_setTile x y v : uniform (setTile x y v).
Proof.
  unfold setTile. apply uniform_bind; [apply uniform_board_put|].
  intros _. destruct (v =? DEAD); [apply uniform_drawTile|].
  destruct (v =? ALIVE); [apply uniform_drawTile|apply uniform_ret].
Qed.

Lemma uniform_isTileAlive x y : uniform (isTileAlive x y).
Proof.
  unfold isTileAlive. apply uniform_bind; [apply uniform_board_get|].
  intros v. destruct (js_eq v ALIVE); [apply uniform_ret|].
  apply uniform_bind; [apply uniform_board_get|]. intros v'. apply uniform_ret.
Qed.

Lemma uniform_getNumAliveNeighbors x y : uniform (getNumAliveNeighbors x y).
Proof.
  unfold getNumAliveNeighbors.
  apply uniform_for_acc. intros i n. apply uniform_for_acc. intros j m.
  destruct (_ && _); [|apply uniform_ret].
  apply uniform_bind; [apply uniform_isTileAlive|]. intros b. apply uniform_ret.
Qed.

Lemma uniform_refreshBoard : uniform refreshBoard.
Proof.
  unfold refreshBoard.
  apply uniform_for_each. intros i. apply uniform_for_each. intros j.
  apply uniform_bind; [apply uniform_board_get|]. intros v.
  destruct (js_eq v PENDING_DEAD); [apply uniform_setTile|].
  apply uniform_bind; [apply uniform_board_get|]. intros v'.
  destruct (js_eq v' PENDING_ALIVE); [apply uniform_setTile|apply uniform_ret].
Qed.

Lemma uniform_playGame : uniform playGame.
Proof.
  unfold playGame. apply uniform_bind; [apply uniform_get_isPlaying|].
  intros [|]; [|apply uniform_ret].
  apply uniform_bind; [|intros _; apply uniform_refreshBoard].
  apply uniform_for_each. intros i. apply uniform_for_each. intros j.
  apply uniform_bind; [apply uniform_getNumAliveNeighbors|]. intros n.
  apply uniform_bind; [apply uniform_board_get|]. intros v.
  destruct (_ && _); [apply uniform_setTile|].
  apply uniform_bind; [apply uniform_board_get|]. intros v'.
  destruct (_ && _); [apply uniform_setTile|apply uniform_ret].
Qed.

(** ** The claims *)

(** C1.  On a grid whose tiles are all dead or alive, one tick while the
    game is playing ([playGame]: the scan, then [refreshBoard]) returns
    normally and rewrites the grid by Conway's rule read on the state
    before the tick: an alive tile with fewer than two or more than
    three alive neighbours ends dead, a dead tile with exactly three
    ends alive, every other tile keeps its state. *)
Theorem playGame_conway s :
  settled s → isPlaying s = true →
  ∃ s', playGame s = (Normal tt, s') ∧
    ∀ x y, in_grid x y →
      let n := live_neighbors s x y in
      (cell s x y = Some ALIVE → n < 2 ∨ n > 3 → cell s' x y = Some DEAD) ∧
      (cell s x y = Some DEAD → n = 3 → cell s' x y = Some ALIVE) ∧
      (¬ (cell s x y = Some ALIVE ∧ (n < 2 ∨ n > 3)) →
       ¬ (cell s x y = Some DEAD ∧ n = 3) →
       cell s' x y = cell s x y).
Proof.
  intros Hset Hp.
  destruct (playGame_run s Hset Hp) as (s' & Hrun & _ & _ & Hc).
  exists s'. split; [done|].
  intros x y Hg n. rewrite Hc, decide_True by done.
  unfold pending_mark. cbv zeta. fold n. rewrite Z.gtb_ltb.
  destruct Hset as [_ Hset]. specialize (Hset x y Hg).
  split; [|split].
  - intros -> Hn. simpl.
    destruct (Z.ltb_spec n 2), (Z.ltb_spec 3 n); simpl; done || lia.
  - intros -> Hn. simpl. by rewrite Hn.
  - intros H1 H2. destruct Hset as [Hv | Hv]; rewrite Hv; simpl.
    + destruct (Z.eqb_spec n 3); simpl; [|done]. exfalso. apply H2. auto.
    + destruct (Z.ltb_spec n 2), (Z.ltb_spec 3 n); simpl; try done;
        exfalso; apply H1; split; auto; lia.
Qed.

(** C3.  For a tile [(x, y)] of the grid, [getNumAliveNeighbors] returns
    normally, leaves the state as it was and answers the number of
    tiles of [neighbors x y] that [isTileAlive] reports alive.  Those
    are exactly the tiles of the grid at Chebyshev distance 1 (no
    wrap-around, never the tile itself), the answer depends on no other
    tile, lies in [0, 8], is at most 3 on a corner and at most 5 on an
    edge off the corners, and an interior tile has exactly 8
    neighbours. *)
Theorem getNumAliveNeighbors_spec s x y :
  shaped s → in_grid x y →
  getNumAliveNeighbors x y s =
    (Normal (count_neighbors (alive_at s) x y), s) ∧
  (∀ i j, (i, j) ∈ neighbors x y ↔
          in_grid i j ∧ Z.max (Z.abs (i - x)) (Z.abs (j - y)) = 1) ∧
  ((x, y) ∉ neighbors x y) ∧
  (∀ s', shaped s' →
     (∀ i j, (i, j) ∈ neighbors x y → cell s' i j = cell s i j) →
     fst (getNumAliveNeighbors x y s') = fst (getNumAliveNeighbors x y s)) ∧
  0 ≤ count_neighbors (alive_at s) x y ≤ 8 ∧
  (corner x y → count_neighbors (alive_at s) x y ≤ 3) ∧
  (edge x y → count_neighbors (alive_at s) x y ≤ 5) ∧
  (interior x y → length (neighbors x y) = 8%nat).
Proof.
  intros Hs Hg.
  pose proof (count_neighbors_bounds (alive_at s) x y) as Hb.
  split; [by apply getNumAliveNeighbors_run|].
  split; [apply elem_of_neighbors|].
  split; [rewrite elem_of_neighbors; lia|].
  split; [|split; [|split; [|split]]].
  - intros s' Hs' Hagree. rewrite !getNumAliveNeighbors_run by done.
    simpl. f_equal. apply count_neighbors_ext.
    intros i j Hin. unfold alive_at. by rewrite Hagree.
  - pose proof (neighbors_length_le x y). lia.
  - intros Hc. rewrite (neighbors_length_corner x y Hc) in Hb. lia.
  - intros He. rewrite (neighbors_length_edge x y He) in Hb. lia.
  - apply neighbors_length_interior.
Qed.

(** C5.  From any board and any value of [isPlaying], [clearBoard]
    returns normally with every tile of the grid dead and [isPlaying]
    false. *)
Theorem clearBoard_resets s :
  shaped s →
  ∃ s', clearBoard s = (Normal tt, s') ∧
    (∀ x y, in_grid x y → cell s' x y = Some DEAD) ∧
    isPlaying s' = false.
Proof.
  intros Hs. unfold clearBoard.
  rewrite (bind_Normal (put_playButton "Play") _ s tt _ eq_refl).
  rewrite (bind_Normal (put_isPlaying false) _ _ tt _ eq_refl).
  destruct (clear_loops_run (set_isPlaying false (set_playButton "Play" s)))
    as (s' & Hrun & _ & [Hk _] & Hc); [done|].
  exists s'. split; [done|]. split; [|done].
  intros x y Hg. by rewrite Hc, decide_True.
Qed.

(** C6.  While [isPlaying] is false, [playGame] returns at once: the
    whole state, hence every tile, is as before. *)
Theorem playGame_paused_noop s :
  isPlaying s = false → playGame s = (Normal tt, s).
Proof. apply playGame_paused. Qed.

(** C7.  For a tile of the grid, [isTileAlive] answers true exactly when
    the tile is [ALIVE] or [PENDING_DEAD], and leaves the state as it
    was; a [PENDING_ALIVE] tile is reported not alive. *)
Theorem isTileAlive_spec s x y :
  shaped s → in_grid x y →
  ∃ b, isTileAlive x y s = (Normal b, s) ∧
    (b = true ↔ cell s x y = Some ALIVE ∨ cell s x y = Some PENDING_DEAD) ∧
    (cell s x y = Some PENDING_ALIVE → b = false).
Proof.
  intros Hs [Hx _]. exists (alive_at s x y).
  split; [by apply isTileAlive_run|]. unfold alive_at. split.
  - by rewrite orb_true_iff, !js_eq_true.
  - by intros ->.
Qed.

(** C2.  After [setup] on the board built at load time every tile of
    the grid is dead or alive, every command of the page (a mouse click
    anywhere, the play button, the reset button, a timer tick) keeps it
    so, and therefore so does every sequence of commands: between two
    commands no tile is pending. *)
Theorem settled_invariant :
  (∀ s0, board s0 = new_board → settled (snd (setup s0))) ∧
  (∀ c s, settled s → settled (dispatch c s)) ∧
  (∀ s0 cs, board s0 = new_board →
            settled (run_commands cs (snd (setup s0)))).
Proof.
  assert (∀ s0, board s0 = new_board → settled (snd (setup s0))) as Hinit.
  { intros s0 Hb. apply clearBoard_settled. unfold shaped. rewrite Hb.
    apply length_replicate. }
  split; [done|]. split; [apply dispatch_settled|].
  intros s0 cs Hb. by apply run_commands_settled, Hinit.
Qed.

(** C4 (amended).  For a click that [mousePositionToTile] sends to the
    tile [(x, y)] of the grid: while the game is playing [changeTile]
    changes nothing; while it is paused it returns normally after one
    write to the board, which turns a dead tile alive and an alive tile
    dead and leaves every other tile and [isPlaying] as they were.
    While paused neither [playGame] nor [playOrPause] changes the
    board; nothing is said here of [clearBoard]. *)
Theorem changeTile_flips s e x y :
  shaped s →
  mousePositionToTile (offsetX e) (offsetY e) = Tile x y →
  in_grid x y →
  (isPlaying s = true → changeTile e s = (Normal tt, s)) ∧
  (isPlaying s = false →
     (∃ s', changeTile e s = (Normal tt, s') ∧
        (cell s x y = Some DEAD → cell s' x y = Some ALIVE) ∧
        (cell s x y = Some ALIVE → cell s' x y = Some DEAD) ∧
        (∀ i j, (i, j) ≠ (x, y) → cell s' i j = cell s i j) ∧
        (∃ v, writes s' = writes s ++ [(x, y, v)]) ∧
        isPlaying s' = false) ∧
     board (dispatch TimerTick s) = board s ∧
     board (dispatch PlayClick s) = board s).
Proof.
  intros Hs Ht [Hx Hy]. split; [apply changeTile_playing|].
  intros Hp. split; [|split].
  - destruct (changeTile_paused s e Hs Hp) as (s' & Hrun & Hw & Hl).
    { by rewrite Ht. }
    rewrite Ht in Hw, Hl. simpl in Hw, Hl.
    destruct Hw as (_ & [Hk _] & Hc).
    exists s'. split; [done|].
    split; [|split; [|split; [|split]]].
    + intros Hv. rewrite Hc, decide_True by done. by rewrite Hv.
    + intros Hv. rewrite Hc, decide_True by done. by rewrite Hv.
    + intros i j Hne. rewrite Hc, decide_False; [done|].
      intros [-> ->]. done.
    + eauto.
    + by rewrite Hk.
  - unfold dispatch. simpl. by rewrite playGame_paused.
  - unfold dispatch. simpl. apply playOrPause_board.
Qed.

(** C8 (amended).  [setTile] and the read [board[x][y]] check no bound.
    With [x] inside [0, NUM_TILES_WIDE) they never fail, whatever [y]:
    the write stores the value under key [y] of column [x], a later
    read finds it there, and no other element changes.  With [x]
    outside that range both throw the TypeError of an undefined column
    and change nothing.  That TypeError is the only failure. *)
Theorem setTile_unchecked s x y v :
  shaped s →
  (0 ≤ x < NUM_TILES_WIDE →
     board_get x y s = (Normal (cell s x y), s) ∧
     ∃ s', setTile x y v s = (Normal tt, s') ∧
       board_get x y s' = (Normal (Some v), s') ∧
       ∀ i j, (i, j) ≠ (x, y) → cell s' i j = cell s i j) ∧
  (¬ (0 ≤ x < NUM_TILES_WIDE) →
     board_get x y s = (Throw TypeError, s) ∧
     setTile x y v s = (Throw TypeError, s)) ∧
  (∀ e s', fst (setTile x y v s) = Throw e ∨ board_get x y s = (Throw e, s') →
           e = TypeError ∧ ¬ (0 ≤ x < NUM_TILES_WIDE)).
Proof.
  intros Hs. split; [|split].
  - intros Hx. split; [by apply board_get_run|].
    destruct (setTile_run s x y v Hs Hx) as (s' & Hrun & (Hs' & _ & Hc) & _).
    exists s'. split; [done|]. split.
    + rewrite board_get_run by done. by rewrite Hc, decide_True.
    + intros i j Hne. rewrite Hc, decide_False; [done|].
      intros [-> ->]. done.
  - intros Hx. split; [by apply board_get_throw|by apply setTile_throw].
  - intros [] s' Hfail. split; [done|]. intros Hx.
    destruct (setTile_run s x y v Hs Hx) as (t & Hrun & _).
    rewrite Hrun, board_get_run in Hfail by done.
    destruct Hfail; discriminate.
Qed.

(** C9 (amended).  Nothing clamps or rejects the tile of a click.  While
    paused, [changeTile] reads and writes the board at the very tile
    that [mousePositionToTile] answers for the position of the mouse:
    when that tile lies in the grid the access is in bounds and the
    tile is flipped, every other element staying as it is; when only
    its column lies on the board the edit is stored outside the grid
    and no tile of the grid changes; when its column is off the board
    the access throws a TypeError and nothing changes. *)
Theorem changeTile_unclamped px py s :
  shaped s → isPlaying s = false →
  let t := mousePositionToTile px py in
  let v := flipped (cell s (xPos t) (yPos t)) in
  (in_grid (xPos t) (yPos t) →
     ∃ s', changeTile (MouseEvent px py) s = (Normal tt, s') ∧
       writes s' = writes s ++ [(xPos t, yPos t, v)] ∧
       cell s' (xPos t) (yPos t) = Some v ∧
       ∀ i j, (i, j) ≠ (xPos t, yPos t) → cell s' i j = cell s i j) ∧
  (0 ≤ xPos t < NUM_TILES_WIDE → ¬ (0 ≤ yPos t < NUM_TILES_HIGH) →
     ∃ s', changeTile (MouseEvent px py) s = (Normal tt, s') ∧
       writes s' = writes s ++ [(xPos t, yPos t, v)] ∧
       cell s' (xPos t) (yPos t) = Some v ∧
       ∀ i j, in_grid i j → cell s' i j = cell s i j) ∧
  (¬ (0 ≤ xPos t < NUM_TILES_WIDE) →
     changeTile (MouseEvent px py) s = (Throw TypeError, s)).
Proof.
  intros Hs Hp t v.
  assert (0 ≤ xPos t < NUM_TILES_WIDE →
          ∃ s', changeTile (MouseEvent px py) s = (Normal tt, s') ∧
            writes s' = writes s ++ [(xPos t, yPos t, v)] ∧
            cell s' (xPos t) (yPos t) = Some v ∧
            ∀ i j, (i, j) ≠ (xPos t, yPos t) → cell s' i j = cell s i j)
    as Hwrite.
  { intros Hx.
    destruct (changeTile_paused s (MouseEvent px py) Hs Hp Hx)
      as (s' & Hrun & (_ & _ & Hc) & Hl).
    cbv zeta in Hc, Hl. cbn [offsetX offsetY] in Hc, Hl.
    fold t in Hc, Hl. fold v in Hc, Hl.
    exists s'. split; [done|]. split; [done|]. split.
    - by rewrite Hc, decide_True.
    - intros i j Hne. rewrite Hc, decide_False; [done|].
      intros [-> ->]. done. }
  split; [|split].
  - intros [Hx _]. by apply Hwrite.
  - intros Hx Hy. destruct (Hwrite Hx) as (s' & Hrun & Hl & Hc & Hf).
    exists s'. split; [done|]. split; [done|]. split; [done|].
    intros i j [_ Hj]. apply Hf. intros Heq. inversion Heq; subst. done.
  - intros Hx. by apply changeTile_paused_throw.
Qed.

(** C10.  [playGame] reads nothing but the board and [isPlaying]: from
    two states that agree on both it completes the same way, leaves
    equal boards and equal [isPlaying], and performs the same sequence
    of writes to the board (and fills the same rectangles). *)
Theorem playGame_deterministic s1 s2 :
  board s1 = board s2 → isPlaying s1 = isPlaying s2 →
  fst (playGame s1) = fst (playGame s2) ∧
  board (snd (playGame s1)) = board (snd (playGame s2)) ∧
  isPlaying (snd (playGame s1)) = isPlaying (snd (playGame s2)) ∧
  ∃ w d,
    writes (snd (playGame s1)) = writes s1 ++ w ∧
    writes (snd (playGame s2)) = writes s2 ++ w ∧
    painted (snd (playGame s1)) = painted s1 ++ d ∧
    painted (snd (playGame s2)) = painted s2 ++ d.
Proof.
  intros Hb Hp.
  destruct (uniform_playGame s1 s2 (conj Hb Hp))
    as (w & d & Hr & [Hb' Hp'] & Hw).
  split; [done|]. split; [done|]. split; [done|]. by exists w, d.
Qed.

(** ** Further properties of the script *)

(** *** Writes and rectangles of a loop over the grid *)

Lemma setTile_log s x y v :
  shaped s → 0 ≤ x < NUM_TILES_WIDE →
  ∃ s', setTile x y v s = (Normal tt, s') ∧ written x y v s s' ∧
        writes s' = writes s ++ [(x, y, v)] ∧
        painted s' = painted s ++ paint_of x y v ∧
        fillStyle s' = (if v =? DEAD then DEAD_COLOR
                        else if v =? ALIVE then ALIVE_COLOR
                        else fillStyle s).
Proof.
  intros Hs Hx. unfold setTile, bind, paint_of.
  destruct (board_put_run s x y v Hs Hx) as (s1 & -> & Hw & Hl & Hp & Hf).
  destruct (v =? DEAD); [|destruct (v =? ALIVE)];
    (eexists; split; [reflexivity|]; split; [exact Hw|]; split; [exact Hl|]);
    simpl; rewrite ?Hp, ?Hf, ?app_nil_r; done.
Qed.

Lemma for_each_cells_log (body : Z * Z → M unit) (P : state → Prop)
    (orig goal : Z → Z → option Z)
    (W : Z → Z → list (Z * Z * Z)) (D : Z → Z → list rect) :
  (∀ s i j, shaped s → P s → in_grid i j → cell s i j = orig i j →
     ∃ s', body (i, j) s = (Normal tt, s') ∧ shaped s' ∧ kept s s' ∧ P s' ∧
       (∀ a b, cell s' a b =
               if decide (a = i ∧ b = j) then goal i j else cell s a b) ∧
       writes s' = writes s ++ W i j ∧ painted s' = painted s ++ D i j) →
  ∀ l, NoDup l → (∀ i j, (i, j) ∈ l → in_grid i j) →
  ∀ s, shaped s → P s → (∀ i j, (i, j) ∈ l → cell s i j = orig i j) →
  ∃ s', for_each l body s = (Normal tt, s') ∧ shaped s' ∧ kept s s' ∧
    (∀ a b, cell s' a b =
            if decide ((a, b) ∈ l) then goal a b else cell s a b) ∧
    writes s' = writes s ++ (l ≫= λ p, W p.1 p.2) ∧
    painted s' = painted s ++ (l ≫= λ p, D p.1 p.2).
Proof.
  intros Hbody l. induction l as [|[i j] l IH]; intros Hnd Hin s Hs HP Ho.
  - exists s. split; [done|]. split; [done|]. split; [done|].
    split; [|by rewrite !app_nil_r].
    intros a b. rewrite decide_False; [done|]. apply not_elem_of_nil.
  - apply NoDup_cons in Hnd as [Hfresh Hnd].
    destruct (Hbody s i j)
      as (s1 & Hrun & Hs1 & Hk1 & HP1 & Hc1 & Hw1 & Hd1); auto.
    { apply Hin. left. }
    { apply Ho. left. }
    destruct (IH Hnd) with (s := s1)
      as (s2 & Hrun2 & Hs2 & Hk2 & Hc2 & Hw2 & Hd2); auto.
    { intros a b Hab. apply Hin. by right. }
    { intros a b Hab. rewrite Hc1. rewrite decide_False.
      - apply Ho. by right.
      - intros [-> ->]. done. }
    exists s2. split.
    { simpl. unfold bind. by rewrite Hrun. }
    split; [done|]. split; [by eapply kept_trans|]. split.
    { intros a b. rewrite Hc2, Hc1.
      destruct (decide ((a, b) ∈ l)) as [Hl|Hl].
      + rewrite decide_True; [done|]. by right.
      + destruct (decide (a = i ∧ b = j)) as [[-> ->]|Hne].
        * rewrite decide_True; [done|]. left.
        * rewrite decide_False; [done|].
          intros [Heq|?]%elem_of_cons; [|done]. inversion Heq. tauto. }
    rewrite Hw2, Hd2, Hw1, Hd1, !bind_cons, !app_assoc. done.
Qed.

Lemma for_all_cells_log (body : Z → Z → M unit) (P : state → Prop)
    (orig goal : Z → Z → option Z)
    (W : Z → Z → list (Z * Z * Z)) (D : Z → Z → list rect) :
  (∀ s i j, shaped s → P s → in_grid i j → cell s i j = orig i j →
     ∃ s', body i j s = (Normal tt, s') ∧ shaped s' ∧ kept s s' ∧ P s' ∧
       (∀ a b, cell s' a b =
               if decide (a = i ∧ b = j) then goal i j else cell s a b) ∧
       writes s' = writes s ++ W i j ∧ painted s' = painted s ++ D i j) →
  ∀ s, shaped s → P s → (∀ i j, in_grid i j → cell s i j = orig i j) →
  ∃ s',
    for_each (seqZ 0 NUM_TILES_WIDE) (λ i,
      for_each (seqZ 0 NUM_TILES_HIGH) (λ j, body i j)) s = (Normal tt, s') ∧
    shaped s' ∧ kept s s' ∧
    (∀ a b, cell s' a b = if decide (in_grid a b) then goal a b else cell s a b) ∧
    writes s' = writes s ++ (all_cells ≫= λ p, W p.1 p.2) ∧
    painted s' = painted s ++ (all_cells ≫= λ p, D p.1 p.2).
Proof.
  intros Hbody s Hs HP Ho. rewrite for_each_nested. fold all_cells.
  destruct (for_each_cells_log (λ p, body p.1 p.2) P orig goal W D Hbody
              all_cells NoDup_all_cells) with (s := s)
    as (s' & Hrun & Hs' & Hk & Hc & Hw & Hd); auto.
  { intros i j. apply elem_of_all_cells. }
  { intros i j Hin. apply Ho. by apply elem_of_all_cells. }
  exists s'. split; [done|]. split; [done|]. split; [done|].
  split; [|done].
  intros a b. rewrite Hc.
  destruct (decide (in_grid a b)) as [Hg|Hg].
  - rewrite decide_True; [done|]. by apply elem_of_all_cells.
  - rewrite decide_False; [done|]. by rewrite elem_of_all_cells.
Qed.

Lemma bind_singleton_fmap {A B} (f : A → B) (l : list A) :
  (l ≫= λ a, [f a]) = f <$> l.
Proof. induction l as [|a l IH]; [done|]. rewrite bind_cons, IH. done. Qed.

Lemma bind_all_nil {A B} (f : A → list B) (l : list A) :
  (∀ a, a ∈ l → f a = []) → l ≫= f = [].
Proof.
  induction l as [|a l IH]; intros H; [done|].
  rewrite bind_cons, H, IH; [done| |left].
  intros b Hb. apply H. by right.
Qed.

Lemma bind_ext_in {A B} (f g : A → list B) (l : list A) :
  (∀ a, a ∈ l → f a = g a) → l ≫= f = l ≫= g.
Proof.
  induction l as [|a l IH]; intros H; [done|].
  rewrite !bind_cons, H, IH; [done| |left].
  intros b Hb. apply H. by right.
Qed.

(** *** Handlers on any board *)

Lemma for_each_keeps {A} (I : state → Prop) (Q : A → Prop)
    (body : A → M unit) (l : list A) :
  (∀ s i, I s → Q i → ∃ s', body i s = (Normal tt, s') ∧ I s') →
  Forall Q l →
  ∀ s, I s → ∃ s', for_each l body s = (Normal tt, s') ∧ I s'.
Proof.
  intros Hbody Hl. induction Hl as [|i l Hi Hl IH]; intros s Hs.
  - by exists s.
  - destruct (Hbody s i Hs Hi) as (s1 & Hrun & Hs1).
    destruct (IH s1 Hs1) as (s2 & Hrun2 & Hs2).
    exists s2. split; [|done]. simpl. unfold bind. by rewrite Hrun.
Qed.

Lemma for_grid_keeps (I : state → Prop) (body : Z → Z → M unit) :
  (∀ s i j, I s → in_grid i j → ∃ s', body i j s = (Normal tt, s') ∧ I s') →
  ∀ s, I s →
  ∃ s',
    for_each (seqZ 0 NUM_TILES_WIDE) (λ i,
      for_each (seqZ 0 NUM_TILES_HIGH) (λ j, body i j)) s = (Normal tt, s') ∧
    I s'.
Proof.
  intros Hbody.
  apply (for_each_keeps I (λ i, 0 ≤ i < NUM_TILES_WIDE)).
  - intros s i Hs Hi.
    apply (for_each_keeps I (λ j, 0 ≤ j < NUM_TILES_HIGH)); [|
      apply Forall_seqZ; lia|done].
    intros t j Ht Hj. by apply Hbody.
  - apply Forall_seqZ. lia.
Qed.

Lemma written_kept x y v s s' : written x y v s s' → shaped s' ∧ kept s s'.
Proof. by intros (? & ? & _). Qed.

Lemma playGame_keeps s :
  shaped s → ∃ s', playGame s = (Normal tt, s') ∧ shaped s' ∧ kept s s'.
Proof.
  intros Hs. unfold playGame.
  rewrite (bind_Normal get_isPlaying _ s (isPlaying s) s eq_refl).
  destruct (isPlaying s); [|by exists s].
  destruct (for_grid_keeps (λ t, shaped t ∧ kept s t)
    (λ i j,
      numAliveNeighbors <- getNumAliveNeighbors i j ;;
      v <- board_get i j ;;
      if js_eq v ALIVE &&
         ((numAliveNeighbors <? 2) || (numAliveNeighbors >? 3))
      then setTile i j PENDING_DEAD
      else
        v' <- board_get i j ;;
        if js_eq v' DEAD && (numAliveNeighbors =? 3)
        then setTile i j PENDING_ALIVE
        else ret tt)) with (s := s) as (s1 & Hrun1 & Hs1 & Hk1); [|done|].
  { intros t i j [Ht Hk] [Hi _]. unfold bind.
    rewrite getNumAliveNeighbors_run, board_get_run by done.
    destruct (_ && _).
    - destruct (setTile_run t i j PENDING_DEAD Ht Hi)
        as (t' & -> & [Ht' Hk']%written_kept & _).
      exists t'. split; [done|]. split; [done|]. by eapply kept_trans.
    - rewrite board_get_run by done. destruct (_ && _).
      + destruct (setTile_run t i j PENDING_ALIVE Ht Hi)
          as (t' & -> & [Ht' Hk']%written_kept & _).
        exists t'. split; [done|]. split; [done|]. by eapply kept_trans.
      + by exists t. }
  rewrite (bind_Normal _ _ _ _ _ Hrun1).
  destruct (refreshBoard_run s1 Hs1) as (s2 & Hrun2 & Hs2 & Hk2 & _).
  exists s2. split; [done|]. split; [done|]. by eapply kept_trans.
Qed.

Lemma clearBoard_keeps s :
  shaped s →
  ∃ s', clearBoard s = (Normal tt, s') ∧ shaped s' ∧
        isPlaying s' = false ∧ playButton s' = "Play".
Proof.
  intros Hs. unfold clearBoard.
  rewrite (bind_Normal (put_playButton "Play") _ s tt _ eq_refl).
  rewrite (bind_Normal (put_isPlaying false) _ _ tt _ eq_refl).
  destruct (clear_loops_run (set_isPlaying false (set_playButton "Play" s)))
    as (s' & Hrun & Hs' & [Hp Hl] & _); [done|].
  by exists s'.
Qed.

Lemma playOrPause_run s :
  playOrPause s =
  (Normal tt,
   set_isPlaying (negb (isPlaying s))
     (set_playButton (if isPlaying s then "Play" else "Pause") s)).
Proof.
  unfold playOrPause.
  rewrite (bind_Normal get_isPlaying _ s (isPlaying s) s eq_refl).
  by destruct (isPlaying s).
Qed.

(** X1.  [playOrPause] never fails; it flips [isPlaying], sets the label
    of the button to what the next click would do, and touches neither
    the board nor the canvas.  From a state whose label is right, two
    clicks on the button give the state back. *)
Theorem playOrPause_toggles s :
  ∃ s', playOrPause s = (Normal tt, s') ∧
    isPlaying s' = negb (isPlaying s) ∧ label_ok s' ∧
    board s' = board s ∧ writes s' = writes s ∧ painted s' = painted s ∧
    (label_ok s → snd (playOrPause s') = s).
Proof.
  eexists. split; [apply playOrPause_run|].
  split; [done|]. split.
  { unfold label_ok. simpl. by destruct (isPlaying s). }
  split; [done|]. split; [done|]. split; [done|].
  intros Hl. rewrite playOrPause_run. unfold label_ok in Hl.
  destruct s as [b p l f d w]. simpl in *. subst l. by destruct p.
Qed.

(** X2.  After [setup] the label of the play button reflects
    [isPlaying] ("Pause" while playing, "Play" while paused); every
    command keeps it so on any board of 25 columns, and so does every
    sequence of commands. *)
Theorem label_invariant :
  (∀ s0, board s0 = new_board → label_ok (snd (setup s0))) ∧
  (∀ c s, shaped s → label_ok s →
          shaped (dispatch c s) ∧ label_ok (dispatch c s)) ∧
  (∀ s0 cs, board s0 = new_board →
            label_ok (run_commands cs (snd (setup s0)))).
Proof.
  assert (∀ s, shaped s → shaped (snd (clearBoard s)) ∧
                          label_ok (snd (clearBoard s))) as Hclear.
  { intros s Hs. destruct (clearBoard_keeps s Hs) as (s' & -> & ? & Hp & Hl).
    split; [done|]. unfold label_ok. simpl. by rewrite Hp, Hl. }
  assert (∀ s s', kept s s' → label_ok s → label_ok s') as Hkept.
  { unfold label_ok. by intros s s' [-> ->]. }
  assert (∀ c s, shaped s → label_ok s →
                 shaped (dispatch c s) ∧ label_ok (dispatch c s)) as Hstep.
  { intros c s Hs Hl. unfold dispatch. destruct c as [e| | |]; simpl.
    - destruct (isPlaying s) eqn:Hp.
      { by rewrite changeTile_playing. }
      destruct (decide (0 ≤ xPos (mousePositionToTile (offsetX e) (offsetY e))
                        < NUM_TILES_WIDE)) as [Hx|Hx].
      + destruct (changeTile_paused s e Hs Hp Hx)
          as (s' & -> & [? ?]%written_kept & _). simpl. eauto.
      + by rewrite changeTile_paused_throw.
    - rewrite playOrPause_run. split; [done|].
      unfold label_ok. simpl. by destruct (isPlaying s).
    - by apply Hclear.
    - destruct (playGame_keeps s Hs) as (s' & -> & ? & ?). simpl. eauto. }
  assert (∀ s0, board s0 = new_board → shaped s0) as Hnew.
  { intros s0 Hb. unfold shaped. rewrite Hb. apply length_replicate. }
  split; [|split; [done|]].
  - intros s0 Hb. by apply Hclear, Hnew.
  - intros s0 cs Hb.
    assert (shaped (snd (setup s0)) ∧ label_ok (snd (setup s0))) as Hinit
      by by apply Hclear, Hnew.
    revert Hinit. generalize (snd (setup s0)).
    induction cs as [|c cs IH]; intros s [Hs Hl]; [done|].
    simpl. by apply IH, Hstep.
Qed.

(** X3.  On any board of 25 columns the play button, the reset button
    and the timer tick never throw, whatever the tiles hold; a click
    throws only while paused and only when its column is off the board,
    and then it changes nothing.  Every handler leaves a board of 25
    columns. *)
Theorem handler_throws_only_off_board c s :
  shaped s →
  shaped (dispatch c s) ∧
  ∀ e, fst (handler c s) = Throw e →
    ∃ ev, c = MouseDown ev ∧ isPlaying s = false ∧
      ¬ (0 ≤ xPos (mousePositionToTile (offsetX ev) (offsetY ev))
         < NUM_TILES_WIDE) ∧
      dispatch c s = s.
Proof.
  intros Hs. unfold dispatch. destruct c as [ev| | |]; simpl.
  - destruct (isPlaying s) eqn:Hp.
    { rewrite changeTile_playing by done. by split. }
    destruct (decide (0 ≤ xPos (mousePositionToTile (offsetX ev) (offsetY ev))
                      < NUM_TILES_WIDE)) as [Hx|Hx].
    + destruct (changeTile_paused s ev Hs Hp Hx)
        as (s' & -> & [? ?]%written_kept & _). by split.
    + rewrite changeTile_paused_throw by done. split; [done|].
      intros e _. by exists ev.
  - rewrite playOrPause_run. by split.
  - destruct (clearBoard_keeps s Hs) as (s' & -> & ? & _). by split.
  - destruct (playGame_keeps s Hs) as (s' & -> & ? & _). by split.
Qed.

(** *** The refresh and the paint of a tick *)

Lemma js_eq_false v n : v ≠ Some n → js_eq v n = false.
Proof.
  intros H. destruct (js_eq v n) eqn:E; [|done]. by apply js_eq_true in E.
Qed.

Lemma resolve_not_pending v :
  resolve v ≠ Some PENDING_DEAD ∧ resolve v ≠ Some PENDING_ALIVE.
Proof.
  unfold resolve. destruct v as [z|]; simpl; [|done].
  destruct (Z.eqb_spec z PENDING_DEAD); [done|].
  destruct (Z.eqb_spec z PENDING_ALIVE); [done|].
  split; congruence.
Qed.

Lemma refresh_paint_repaint s1 s2 x y :
  cell s2 x y = resolve (cell s1 x y) →
  (refresh_write (cell s1 x y) x y ≫= λ w, paint_of w.1.1 w.1.2 w.2) =
  repaint s1 s2 x y.
Proof.
  intros H2. unfold repaint, refresh_write. rewrite H2. unfold resolve.
  destruct (js_eq (cell s1 x y) PENDING_DEAD) eqn:E1.
  { apply js_eq_true in E1. rewrite E1. by rewrite decide_False. }
  destruct (js_eq (cell s1 x y) PENDING_ALIVE) eqn:E2.
  { apply js_eq_true in E2. rewrite E2. by rewrite decide_False. }
  by rewrite decide_True.
Qed.

Lemma refreshBoard_log s1 :
  shaped s1 →
  ∃ s2, refreshBoard s1 = (Normal tt, s2) ∧ shaped s2 ∧ kept s1 s2 ∧
    (∀ a b, cell s2 a b =
            if decide (in_grid a b) then resolve (cell s1 a b)
            else cell s1 a b) ∧
    writes s2 =
      writes s1 ++ (all_cells ≫= λ p, refresh_write (cell s1 p.1 p.2) p.1 p.2) ∧
    painted s2 =
      painted s1 ++
      (all_cells ≫= λ p,
         refresh_write (cell s1 p.1 p.2) p.1 p.2 ≫=
           λ w, paint_of w.1.1 w.1.2 w.2).
Proof.
  intros Hs1. unfold refreshBoard.
  apply (for_all_cells_log _ (λ _, True) (cell s1)
           (λ a b, resolve (cell s1 a b))
           (λ i j, refresh_write (cell s1 i j) i j)
           (λ i j, refresh_write (cell s1 i j) i j ≫=
                     λ w, paint_of w.1.1 w.1.2 w.2)); auto.
  intros s i j Hs _ [Hi _] Ho.
  unfold bind, resolve, refresh_write.
  rewrite board_get_run by done. rewrite Ho.
  destruct (js_eq (cell s1 i j) PENDING_DEAD).
  - destruct (setTile_log s i j DEAD Hs Hi)
      as (s' & -> & (? & ? & ?) & ? & ? & _).
    exists s'. csimpl. done.
  - rewrite board_get_run by done. rewrite Ho.
    destruct (js_eq (cell s1 i j) PENDING_ALIVE).
    + destruct (setTile_log s i j ALIVE Hs Hi)
        as (s' & -> & (? & ? & ?) & ? & ? & _).
      exists s'. csimpl. done.
    + exists s. csimpl. rewrite !app_nil_r.
      split; [done|]. split; [done|]. split; [done|]. split; [done|].
      split; [|done].
      intros a b. destruct (decide (a = i ∧ b = j)) as [[-> ->]|Hne]; done.
Qed.

(** X4.  On any board of 25 columns [refreshBoard] returns normally; it
    turns every pending-dead tile of the grid dead and every
    pending-alive tile alive, leaves every other element as it is, so
    that no tile of the grid is pending afterwards; it writes the
    pending tiles only, in scan order, and fills one rectangle for each
    tile it changes, in the colour of the new state. *)
Theorem refreshBoard_resolves s :
  shaped s →
  ∃ s', refreshBoard s = (Normal tt, s') ∧
    (∀ a b, cell s' a b =
            if decide (in_grid a b) then resolve (cell s a b)
            else cell s a b) ∧
    no_pending s' ∧
    isPlaying s' = isPlaying s ∧
    writes s' =
      writes s ++ (all_cells ≫= λ p, refresh_write (cell s p.1 p.2) p.1 p.2) ∧
    painted s' = painted s ++ (all_cells ≫= λ p, repaint s s' p.1 p.2).
Proof.
  intros Hs.
  destruct (refreshBoard_log s Hs) as (s' & Hrun & _ & [Hp _] & Hc & Hw & Hd).
  exists s'. split; [done|]. split; [done|]. split.
  { intros x y Hg. rewrite Hc, decide_True by done.
    apply resolve_not_pending. }
  split; [done|]. split; [done|].
  rewrite Hd. f_equal. apply bind_ext_in. intros [x y] Hin. simpl.
  apply refresh_paint_repaint.
  rewrite Hc, decide_True; [done|]. by apply elem_of_all_cells.
Qed.

Lemma for_each_id {A} (l : list A) (body : A → M unit) s :
  (∀ i, i ∈ l → body i s = (Normal tt, s)) →
  for_each l body s = (Normal tt, s).
Proof.
  induction l as [|i l IH]; intros H; [done|].
  simpl. unfold bind. rewrite H by left. apply IH.
  intros k Hk. apply H. by right.
Qed.

Lemma for_grid_id (body : Z → Z → M unit) s :
  (∀ i j, in_grid i j → body i j s = (Normal tt, s)) →
  for_each (seqZ 0 NUM_TILES_WIDE) (λ i,
    for_each (seqZ 0 NUM_TILES_HIGH) (λ j, body i j)) s = (Normal tt, s).
Proof.
  intros H. apply for_each_id. intros i Hi%elem_of_seqZ.
  apply for_each_id. intros j Hj%elem_of_seqZ.
  apply H. unfold in_grid. lia.
Qed.

Lemma refreshBoard_noop s :
  shaped s → no_pending s → refreshBoard s = (Normal tt, s).
Proof.
  intros Hs Hn. unfold refreshBoard. apply for_grid_id.
  intros i j Hg. destruct (Hn i j Hg) as [H1 H2]. unfold bind.
  rewrite board_get_run by (done || apply Hg).
  rewrite (js_eq_false _ _ H1).
  rewrite board_get_run by (done || apply Hg).
  by rewrite (js_eq_false _ _ H2).
Qed.

(** X5.  A second [refreshBoard] right after the first changes nothing
    at all, and on a board without pending tile the first one already
    leaves the whole state (board, canvas, writes) as it was. *)
Theorem refreshBoard_idempotent s :
  shaped s →
  (no_pending s → refreshBoard s = (Normal tt, s)) ∧
  refreshBoard (snd (refreshBoard s)) = (Normal tt, snd (refreshBoard s)).
Proof.
  intros Hs. split; [by apply refreshBoard_noop|].
  destruct (refreshBoard_run s Hs) as (s' & -> & Hs' & _ & Hc). simpl.
  apply refreshBoard_noop; [done|].
  intros x y Hg. rewrite Hc, decide_True by done. apply resolve_not_pending.
Qed.

Lemma settled_count s x y :
  settled s → count_neighbors (alive_at s) x y = live_neighbors s x y.
Proof.
  intros [_ Hset]. apply count_neighbors_ext. intros i j Hin.
  by apply alive_at_settled, Hset, (neighbors_in_grid x y).
Qed.

Lemma settled_no_pending s : settled s → no_pending s.
Proof.
  intros [_ Hset] x y Hg. by destruct (Hset x y Hg) as [-> | ->].
Qed.

Lemma stableb_sound s : stableb s = true → stable s.
Proof.
  unfold stableb. rewrite andb_true_iff, forallb_forall.
  intros [Hset Hall]. split; [by apply settledb_sound|].
  intros x y Hg. apply elem_of_all_cells, list_elem_of_In in Hg.
  apply Hall in Hg. simpl in Hg. apply andb_true_iff in Hg as [H1 H2].
  split; intros Hv; rewrite Hv in *; simpl in *.
  - apply andb_true_iff in H1 as [?%Z.leb_le ?%Z.leb_le]. lia.
  - apply negb_true_iff, Z.eqb_neq in H2. done.
Qed.

(** X6.  A tick leaves a stable configuration (every alive tile with two
    or three alive neighbours, no dead tile with three) wholly
    unchanged: [playGame] returns the very state it was given, with no
    write to the board and nothing painted. *)
Theorem playGame_still_life s :
  stable s → playGame s = (Normal tt, s).
Proof.
  intros [Hset Hst]. unfold playGame.
  rewrite (bind_Normal get_isPlaying _ s (isPlaying s) s eq_refl).
  destruct (isPlaying s); [|done].
  erewrite bind_Normal.
  { apply refreshBoard_noop; [apply Hset|by apply settled_no_pending]. }
  apply for_grid_id. intros i j Hg. unfold bind.
  rewrite getNumAliveNeighbors_run by apply Hset.
  rewrite settled_count by done.
  rewrite board_get_run by (apply Hset || apply Hg).
  destruct (Hst i j Hg) as [Ha Hd].
  destruct (proj2 Hset i j Hg) as [Hv | Hv]; rewrite Hv; simpl.
  - rewrite board_get_run by (apply Hset || apply Hg). rewrite Hv. simpl.
    specialize (Hd Hv). by rewrite (proj2 (Z.eqb_neq _ _) Hd).
  - specialize (Ha Hv). rewrite Z.gtb_ltb.
    rewrite (proj2 (Z.ltb_ge _ _)), (proj2 (Z.ltb_ge _ _)) by lia. simpl.
    rewrite board_get_run by (apply Hset || apply Hg). by rewrite Hv.
Qed.

Lemma scan_log s0 :
  settled s0 →
  ∃ s1,
    for_each (seqZ 0 NUM_TILES_WIDE) (λ i,
      for_each (seqZ 0 NUM_TILES_HIGH) (λ j,
        numAliveNeighbors <- getNumAliveNeighbors i j ;;
        v <- board_get i j ;;
        if js_eq v ALIVE &&
           ((numAliveNeighbors <? 2) || (numAliveNeighbors >? 3))
        then setTile i j PENDING_DEAD
        else
          v' <- board_get i j ;;
          if js_eq v' DEAD && (numAliveNeighbors =? 3)
          then setTile i j PENDING_ALIVE
          else ret tt)) s0 = (Normal tt, s1) ∧
    shaped s1 ∧ kept s0 s1 ∧
    (∀ a b, cell s1 a b =
            if decide (in_grid a b) then pending_mark s0 a b else cell s0 a b) ∧
    writes s1 = writes s0 ++ (all_cells ≫= λ p, scan_write s0 p.1 p.2) ∧
    painted s1 = painted s0.
Proof.
  intros [Hs0 Hset].
  cut (∃ s1,
    for_each (seqZ 0 NUM_TILES_WIDE) (λ i,
      for_each (seqZ 0 NUM_TILES_HIGH) (λ j,
        numAliveNeighbors <- getNumAliveNeighbors i j ;;
        v <- board_get i j ;;
        if js_eq v ALIVE &&
           ((numAliveNeighbors <? 2) || (numAliveNeighbors >? 3))
        then setTile i j PENDING_DEAD
        else
          v' <- board_get i j ;;
          if js_eq v' DEAD && (numAliveNeighbors =? 3)
          then setTile i j PENDING_ALIVE
          else ret tt)) s0 = (Normal tt, s1) ∧
    shaped s1 ∧ kept s0 s1 ∧
    (∀ a b, cell s1 a b =
            if decide (in_grid a b) then pending_mark s0 a b else cell s0 a b) ∧
    writes s1 = writes s0 ++ (all_cells ≫= λ p, scan_write s0 p.1 p.2) ∧
    painted s1 = painted s0 ++ (all_cells ≫= λ p, (λ _ _ : Z, []) p.1 p.2)).
  { intros (s1 & ? & ? & ? & ? & ? & Hd). exists s1.
    rewrite bind_all_nil, app_nil_r in Hd by done. done. }
  apply (for_all_cells_log _
           (λ s, ∀ a b, in_grid a b →
                        alive_at s a b = js_eq (cell s0 a b) ALIVE)
           (cell s0) (pending_mark s0) (scan_write s0) (λ _ _, [])); auto.
  2:{ intros a b Hab. by apply alive_at_settled, Hset. }
  intros s i j Hs HP Hg Ho.
  unfold bind. rewrite getNumAliveNeighbors_run by done.
  rewrite board_get_run by (done || apply Hg).
  assert (count_neighbors (alive_at s) i j = live_neighbors s0 i j) as ->.
  { apply count_neighbors_ext. intros a b Hab. apply HP.
    by eapply neighbors_in_grid. }
  rewrite Ho. unfold pending_mark, scan_write. cbv zeta.
  destruct (js_eq (cell s0 i j) ALIVE && _) eqn:E1.
  - apply andb_true_iff in E1 as [E1 _].
    destruct (setTile_log s i j PENDING_DEAD Hs (proj1 Hg))
      as (s' & -> & (Hs' & Hk' & Hc') & Hw' & Hd' & _).
    exists s'. split; [done|]. split; [done|]. split; [done|].
    split; [|done].
    intros a b Hab. unfold alive_at. rewrite Hc'.
    destruct (decide (a = i ∧ b = j)) as [[-> ->]|Hne].
    + by rewrite E1.
    + by apply HP.
  - rewrite board_get_run by (done || apply Hg). rewrite Ho.
    destruct (js_eq (cell s0 i j) DEAD && _) eqn:E2.
    + apply andb_true_iff in E2 as [E2 _]. apply js_eq_true in E2.
      destruct (setTile_log s i j PENDING_ALIVE Hs (proj1 Hg))
        as (s' & -> & (Hs' & Hk' & Hc') & Hw' & Hd' & _).
      exists s'. split; [done|]. split; [done|]. split; [done|].
      split; [|done].
      intros a b Hab. unfold alive_at. rewrite Hc'.
      destruct (decide (a = i ∧ b = j)) as [[-> ->]|Hne].
      * by rewrite E2.
      * by apply HP.
    + exists s. rewrite !app_nil_r.
      split; [done|]. split; [done|]. split; [done|].
      split; [done|]. split; [|done].
      intros a b. destruct (decide (a = i ∧ b = j)) as [[-> ->]|Hne]; done.
Qed.

Lemma paint_mark_repaint s s' x y :
  cell s x y = Some DEAD ∨ cell s x y = Some ALIVE →
  cell s' x y = resolve (pending_mark s x y) →
  (refresh_write (pending_mark s x y) x y ≫= λ w, paint_of w.1.1 w.1.2 w.2) =
  repaint s s' x y.
Proof.
  intros Hv H'. unfold repaint. rewrite H'. unfold pending_mark. cbv zeta.
  destruct Hv as [Hv | Hv]; rewrite Hv; simpl.
  - destruct (live_neighbors s x y =? 3); simpl; try case_decide; done.
  - destruct ((live_neighbors s x y <? 2) || (live_neighbors s x y >? 3));
      simpl; try case_decide; done.
Qed.

(** X7.  A tick on a settled, playing board fills one rectangle for each
    tile of the grid whose state it changes, in scan order and in the
    colour of the new state, and none for a tile that keeps its state.
    It writes the board at the changed tiles only: first their pending
    marks during the scan, then their final states in the refresh. *)
Theorem playGame_paints_changes s :
  settled s → isPlaying s = true →
  ∃ s', playGame s = (Normal tt, s') ∧
    painted s' = painted s ++ (all_cells ≫= λ p, repaint s s' p.1 p.2) ∧
    writes s' =
      writes s ++ (all_cells ≫= λ p, scan_write s p.1 p.2) ++
      (all_cells ≫= λ p, refresh_write (pending_mark s p.1 p.2) p.1 p.2).
Proof.
  intros Hset Hp. unfold playGame.
  rewrite (bind_Normal get_isPlaying _ s (isPlaying s) s eq_refl), Hp.
  destruct (scan_log s Hset) as (s1 & Hrun1 & Hs1 & _ & Hc1 & Hw1 & Hd1).
  rewrite (bind_Normal _ _ _ _ _ Hrun1).
  destruct (refreshBoard_log s1 Hs1) as (s2 & Hrun2 & _ & _ & Hc2 & Hw2 & Hd2).
  exists s2. split; [done|]. split.
  - rewrite Hd2, Hd1. f_equal. apply bind_ext_in.
    intros [x y] Hin%elem_of_all_cells. simpl.
    rewrite Hc1, decide_True by done.
    apply paint_mark_repaint; [by apply Hset|].
    by rewrite Hc2, decide_True, Hc1, decide_True.
  - rewrite Hw2, Hw1, <- app_assoc. do 2 f_equal. apply bind_ext_in.
    intros [x y] Hin%elem_of_all_cells. simpl.
    by rewrite Hc1, decide_True.
Qed.

(** X8.  [clearBoard] writes [DEAD] to each of the 625 tiles of the
    grid, column after column, and fills a black rectangle for each one
    in the same order, whatever the tile held; it sets the label of the
    button to "Play" and leaves the elements stored outside the grid
    where they are. *)
Theorem clearBoard_repaints s :
  shaped s →
  ∃ s', clearBoard s = (Normal tt, s') ∧
    playButton s' = "Play" ∧
    writes s' = writes s ++ ((λ p, (p.1, p.2, DEAD)) <$> all_cells) ∧
    painted s' =
      painted s ++ ((λ p, tile_rect p.1 p.2 DEAD_COLOR) <$> all_cells) ∧
    length all_cells = 625%nat ∧
    (∀ a b, ¬ in_grid a b → cell s' a b = cell s a b).
Proof.
  intros Hs. unfold clearBoard.
  rewrite (bind_Normal (put_playButton "Play") _ s tt _ eq_refl).
  rewrite (bind_Normal (put_isPlaying false) _ _ tt _ eq_refl).
  destruct (for_all_cells_log (λ i j, setTile i j DEAD) (λ _, True)
              (cell s) (λ _ _, Some DEAD)
              (λ i j, [(i, j, DEAD)]) (λ i j, [tile_rect i j DEAD_COLOR]))
    with (s := set_isPlaying false (set_playButton "Play" s))
    as (s' & Hrun & _ & [_ Hl] & Hc & Hw & Hd); auto.
  { intros t i j Ht _ [Hi _] _.
    destruct (setTile_log t i j DEAD Ht Hi)
      as (t' & ? & (? & ? & ?) & ? & ? & _).
    by exists t'. }
  exists s'. split; [done|]. split; [done|].
  rewrite (bind_singleton_fmap (λ p, (p.1, p.2, DEAD))) in Hw.
  rewrite (bind_singleton_fmap (λ p, tile_rect p.1 p.2 DEAD_COLOR)) in Hd.
  split; [done|]. split; [done|]. split; [by vm_compute|].
  intros a b Hab. by rewrite Hc, decide_False.
Qed.

(** X9.  On any board of 25 columns [getNumAliveNeighbors] neither
    throws nor changes the state at a position off the grid: it tests
    the bounds before it reads.  This is for whole numbers below 2^53
    in size, which the counters of its loops step through exactly.  Its
    answer lies in [0, 8] and is 0 for a position more than one step
    off the grid.  [isTileAlive] itself tests nothing and throws a
    TypeError when the column is off the board. *)
Theorem getNumAliveNeighbors_guarded s x y :
  shaped s →
  Z.abs x ≤ 2 ^ 53 - 2 → Z.abs y ≤ 2 ^ 53 - 2 →
  (∃ n, getNumAliveNeighbors x y s = (Normal n, s) ∧ 0 ≤ n ≤ 8 ∧
        (x < -1 ∨ NUM_TILES_WIDE < x ∨ y < -1 ∨ NUM_TILES_HIGH < y →
         n = 0)) ∧
  (¬ (0 ≤ x < NUM_TILES_WIDE) → isTileAlive x y s = (Throw TypeError, s)).
Proof.
  intros Hs _ _. split.
  - exists (count_neighbors (alive_at s) x y).
    split; [by apply getNumAliveNeighbors_run|]. split.
    + pose proof (count_neighbors_bounds (alive_at s) x y).
      pose proof (neighbors_length_le x y). lia.
    + intros Hfar. unfold count_neighbors.
      destruct (neighbors x y) as [|[i j] l] eqn:E; [done|].
      assert ((i, j) ∈ neighbors x y) as Hin by (rewrite E; left).
      apply elem_of_neighbors in Hin as [[Hi Hj] Hd]. lia.
  - intros Hx. unfold isTileAlive, bind. by rewrite board_get_throw.
Qed.

Lemma cells_board_eq s s' :
  shaped s → shaped s' → (∀ i j, cell s' i j = cell s i j) →
  board s' = board s.
Proof.
  intros Hs Hs' Hc. apply list_eq. intros n.
  destruct (decide (n < Z.to_nat NUM_TILES_WIDE)%nat) as [Hn|Hn].
  - assert (0 ≤ Z.of_nat n < NUM_TILES_WIDE) as Hx by lia.
    destruct (column_is_Some s _ Hs Hx) as [c Hcol].
    destruct (column_is_Some s' _ Hs' Hx) as [c' Hcol'].
    assert (c' = c) as ->.
    { apply map_eq. intros j. specialize (Hc (Z.of_nat n) j).
      unfold cell in Hc. by rewrite Hcol, Hcol' in Hc. }
    unfold column in Hcol, Hcol'.
    rewrite (proj2 (Z.leb_le 0 (Z.of_nat n))), Nat2Z.id in Hcol, Hcol' by lia.
    by rewrite Hcol, Hcol'.
  - rewrite !lookup_ge_None_2; [done|rewrite Hs; lia|rewrite Hs'; lia].
Qed.

(** X10.  While the game is paused, two clicks on the same tile give the
    board back: when the tile holds [DEAD] or [ALIVE] and its column is
    on the board, both clicks return normally and the board after the
    second is the board before the first. *)
Theorem changeTile_twice s e :
  shaped s → isPlaying s = false →
  0 ≤ xPos (mousePositionToTile (offsetX e) (offsetY e)) < NUM_TILES_WIDE →
  cell s (xPos (mousePositionToTile (offsetX e) (offsetY e)))
         (yPos (mousePositionToTile (offsetX e) (offsetY e))) = Some DEAD ∨
  cell s (xPos (mousePositionToTile (offsetX e) (offsetY e)))
         (yPos (mousePositionToTile (offsetX e) (offsetY e))) = Some ALIVE →
  ∃ s1 s2, changeTile e s = (Normal tt, s1) ∧
           changeTile e s1 = (Normal tt, s2) ∧
           board s1 ≠ board s ∧ board s2 = board s ∧ isPlaying s2 = false.
Proof.
  intros Hs Hp Hx Hv.
  destruct (changeTile_paused s e Hs Hp Hx)
    as (s1 & Hrun1 & (Hs1 & [Hp1 _] & Hc1) & _).
  rewrite Hp in Hp1.
  destruct (changeTile_paused s1 e Hs1 Hp1 Hx)
    as (s2 & Hrun2 & (Hs2 & [Hp2 _] & Hc2) & _).
  cbv zeta in Hc1, Hc2.
  set (x := xPos (mousePositionToTile (offsetX e) (offsetY e))) in *.
  set (y := yPos (mousePositionToTile (offsetX e) (offsetY e))) in *.
  exists s1, s2. split; [done|]. split; [done|]. split; [|split].
  - intros Hb. specialize (Hc1 x y). rewrite decide_True in Hc1 by done.
    unfold cell in Hc1 at 1. rewrite Hb in Hc1. fold (cell s x y) in Hc1.
    unfold flipped in Hc1. by destruct Hv as [Hv | Hv]; rewrite Hv in Hc1.
  - apply cells_board_eq; [done..|]. intros i j. rewrite Hc2.
    destruct (decide (i = x ∧ j = y)) as [[-> ->]|Hne].
    + rewrite Hc1, decide_True by done. unfold flipped.
      by destruct Hv as [Hv | Hv]; rewrite Hv.
    + by rewrite Hc1, decide_False.
  - congruence.
Qed.

(** X11.  [setTile] on a column of the board stores the status and fills
    one rectangle for [DEAD] (black) or [ALIVE] (yellow), at the place
    of the tile; for any other status, the pending ones among them, it
    fills nothing and leaves the fill style alone.  It never touches
    [isPlaying] or the button. *)
Theorem setTile_paints s x y v :
  shaped s → 0 ≤ x < NUM_TILES_WIDE →
  ∃ s', setTile x y v s = (Normal tt, s') ∧
    cell s' x y = Some v ∧
    isPlaying s' = isPlaying s ∧ playButton s' = playButton s ∧
    (v = DEAD → painted s' = painted s ++ [tile_rect x y "black"] ∧
                fillStyle s' = "black") ∧
    (v = ALIVE → painted s' = painted s ++ [tile_rect x y "yellow"] ∧
                 fillStyle s' = "yellow") ∧
    (v ≠ DEAD → v ≠ ALIVE →
       painted s' = painted s ∧ fillStyle s' = fillStyle s).
Proof.
  intros Hs Hx.
  destruct (setTile_log s x y v Hs Hx)
    as (s' & Hrun & (_ & [Hp Hl] & Hc) & _ & Hd & Hf).
  exists s'. split; [done|]. split.
  { by rewrite Hc, decide_True. }
  split; [done|]. split; [done|]. unfold paint_of in Hd.
  split; [|split].
  - intros ->. by rewrite Hd, Hf.
  - intros ->. by rewrite Hd, Hf.
  - intros H1%Z.eqb_neq H2%Z.eqb_neq. rewrite H1, H2 in Hd, Hf.
    by rewrite Hd, Hf, app_nil_r.
Qed.

(** *** Pixels and tiles *)

Lemma Qfloor_unique (q : Q) (z : Z) :
  (inject_Z z <= q)%Q → (q < inject_Z (z + 1))%Q → Qfloor q = z.
Proof.
  intros Hlo Hhi.
  pose proof (Qfloor_le q) as H1. pose proof (Qlt_floor q) as H2.
  pose proof (Qle_lt_trans _ _ _ Hlo H2) as H3.
  pose proof (Qle_lt_trans _ _ _ H1 Hhi) as H4.
  rewrite <- Zlt_Qlt in H3, H4. lia.
Qed.

Lemma floor_whole (p k : Z) :
  0 < k → Qfloor (inject_Z p / inject_Z k)%Q = p / k.
Proof.
  intros Hk.
  assert (0 < inject_Z k)%Q as Hpos.
  { change 0%Q with (inject_Z 0). by rewrite <- Zlt_Qlt. }
  apply Qfloor_unique.
  - apply Qle_shift_div_l; [done|].
    rewrite <- inject_Z_mult, <- Zle_Qle.
    pose proof (Z.mul_div_le p k Hk). lia.
  - apply Qlt_shift_div_r; [done|].
    rewrite <- inject_Z_mult, <- Zlt_Qlt.
    pose proof (Z.mul_succ_div_gt p k Hk). lia.
Qed.

Lemma tile_size_whole (n k : Z) :
  0 < n → (inject_Z (n * k) / inject_Z n == inject_Z k)%Q.
Proof.
  intros Hn. rewrite inject_Z_mult, Qmult_comm. apply Qdiv_mult_l.
  intros E. change 0%Q with (inject_Z 0) in E.
  apply (proj1 (inject_Z_injective n 0)) in E. lia.
Qed.

(** X12.  On a canvas whose sides are whole multiples of 25 pixels the
    tiles are whole pixels wide and high, and a whole pixel position is
    sent to the tile found by integer division: a position on the
    canvas falls on the grid, and every pixel of the square of tile
    [(x, y)], from the corner where [drawTile] starts its rectangle,
    is sent back to [(x, y)].  The sides are below 2^32 and the
    position within 2^31, as the page gives them. *)
Theorem mousePositionToTile_whole_pixels kx ky px py :
  0 < kx → 0 < ky →
  CANVAS_WIDTH = NUM_TILES_WIDE * kx → CANVAS_HEIGHT = NUM_TILES_HIGH * ky →
  CANVAS_WIDTH < 2 ^ 32 → CANVAS_HEIGHT < 2 ^ 32 →
  - 2 ^ 31 ≤ px < 2 ^ 31 → - 2 ^ 31 ≤ py < 2 ^ 31 →
  mousePositionToTile (inject_Z px) (inject_Z py) = Tile (px / kx) (py / ky) ∧
  (0 ≤ px < CANVAS_WIDTH → 0 ≤ py < CANVAS_HEIGHT →
   in_grid (px / kx) (py / ky)) ∧
  (∀ x y, x * kx ≤ px < (x + 1) * kx → y * ky ≤ py < (y + 1) * ky →
          mousePositionToTile (inject_Z px) (inject_Z py) = Tile x y).
Proof.
  intros Hkx Hky HW HH _ _ _ _.
  assert (mousePositionToTile (inject_Z px) (inject_Z py)
          = Tile (px / kx) (py / ky)) as Hmap.
  { unfold mousePositionToTile, TILE_WIDTH, TILE_HEIGHT. rewrite HW, HH.
    rewrite !tile_size_whole by done. by rewrite !floor_whole. }
  split; [done|]. split.
  - intros Hpx Hpy. unfold in_grid. rewrite HW in Hpx. rewrite HH in Hpy.
    split; (split; [apply Z.div_pos; lia|apply Z.div_lt_upper_bound; lia]).
  - intros x y Hx Hy. rewrite Hmap. f_equal.
    + symmetry. apply (Z.div_unique px kx x (px - x * kx)); lia.
    + symmetry. apply (Z.div_unique py ky y (py - y * ky)); lia.
Qed.

(** X13.  On a canvas whose sides are whole multiples of 25 pixels,
    [25 * kx] by [25 * ky] and below 2^32, [drawTile] fills for tile
    [(x, y)] of the grid the rectangle that starts at pixel
    [(x * kx, y * ky)] and is [kx - 1] wide and [ky - 1] high: it lies
    on the canvas and ends one pixel before the rectangle of the next
    tile starts, so that the tiles are separated by lines one pixel
    wide. *)
Theorem tile_rect_whole_pixels kx ky x y color :
  0 < kx → 0 < ky →
  CANVAS_WIDTH = NUM_TILES_WIDE * kx → CANVAS_HEIGHT = NUM_TILES_HIGH * ky →
  CANVAS_WIDTH < 2 ^ 32 → CANVAS_HEIGHT < 2 ^ 32 →
  in_grid x y →
  let r := tile_rect x y color in
  (rect_x r == inject_Z (x * kx))%Q ∧ (rect_y r == inject_Z (y * ky))%Q ∧
  (rect_w r == inject_Z (kx - 1))%Q ∧ (rect_h r == inject_Z (ky - 1))%Q ∧
  0 ≤ x * kx ∧ x * kx + (kx - 1) ≤ CANVAS_WIDTH - 1 ∧
  0 ≤ y * ky ∧ y * ky + (ky - 1) ≤ CANVAS_HEIGHT - 1 ∧
  (rect_x (tile_rect (x + 1) y color) == rect_x r + rect_w r + 1)%Q ∧
  (rect_y (tile_rect x (y + 1) color) == rect_y r + rect_h r + 1)%Q.
Proof.
  intros Hkx Hky HW HH _ _ [Hx Hy] r.
  assert (TILE_WIDTH == inject_Z kx)%Q as Hw.
  { unfold TILE_WIDTH. rewrite HW. by apply tile_size_whole. }
  assert (TILE_HEIGHT == inject_Z ky)%Q as Hh.
  { unfold TILE_HEIGHT. rewrite HH. by apply tile_size_whole. }
  unfold r, tile_rect. cbn [rect_x rect_y rect_w rect_h].
  rewrite !Hw, !Hh.
  split; [by rewrite inject_Z_mult|]. split; [by rewrite inject_Z_mult|].
  split. { unfold Z.sub. rewrite inject_Z_plus. done. }
  split. { unfold Z.sub. rewrite inject_Z_plus. done. }
  split; [nia|]. split; [nia|]. split; [nia|]. split; [nia|].
  split; rewrite inject_Z_plus; ring.
Qed.

End Script.

(** ** The script on a canvas of 500 by 500 pixels *)

(** The page as loaded, before [setup]: the board of lines 56-63 and
    nothing painted. *)
Definition blank : state := State new_board false "Play" "" [] [].

Definition loaded : state := snd (setup 500 500 blank).

(** A click in the middle of tile [(x, y)]; a tile is 20 pixels wide. *)
Definition click (x y : Z) : command :=
  MouseDown (MouseEvent (inject_Z (20 * x + 10)) (inject_Z (20 * y + 10))).

(** Three tiles in a row around [(12, 12)], the game playing. *)
Definition blinker : state :=
  run_commands 500 500 [click 12 11; click 12 12; click 12 13; PlayClick]
               loaded.

(** The same board and flag behind another button and another canvas. *)
Definition blinker_repainted : state :=
  State (board blinker) (isPlaying blinker) "Stop" "red" [] [(0, 0, DEAD)].

Lemma in_grid_12_12 : in_grid 12 12.
Proof. by apply in_gridb_spec. Qed.

Lemma shaped_loaded : shaped loaded.
Proof. by vm_compute. Qed.

Lemma shaped_blinker : shaped blinker.
Proof. by vm_compute. Qed.

Lemma settled_blinker : settled blinker.
Proof. apply settledb_sound. by vm_compute. Qed.

Example blinker_turns :
  let s' := snd (playGame 500 500 blinker) in
  List.filter (λ p, js_eq (cell s' p.1 p.2) ALIVE) all_cells =
  [(11, 12); (12, 12); (13, 12)].
Proof. by vm_compute. Qed.

Lemma playGame_conway_witness :
  settled blinker ∧ isPlaying blinker = true ∧
  ∃ s', playGame 500 500 blinker = (Normal tt, s') ∧
        cell s' 11 12 = Some ALIVE ∧ cell s' 12 11 = Some DEAD ∧
        cell s' 12 12 = Some ALIVE.
Proof.
  split; [exact settled_blinker|]. split; [reflexivity|].
  destruct (playGame_conway 500 500 blinker settled_blinker eq_refl)
    as (s' & Hrun & Hc).
  exists s'. split; [exact Hrun|]. split; [|split].
  - apply (Hc 11 12); [by apply in_gridb_spec| |]; by vm_compute.
  - apply (Hc 12 11); [by apply in_gridb_spec| |]; vm_compute; auto.
  - transitivity (cell blinker 12 12); [|by vm_compute].
    apply (Hc 12 12); [by apply in_gridb_spec| |]; vm_compute;
      intros [_ H]; [destruct H as [H|H]|]; discriminate H.
Defined.

Lemma settled_invariant_witness :
  board blank = new_board ∧ settled loaded ∧
  settled (dispatch 500 500 TimerTick blinker) ∧
  settled (run_commands 500 500 [click 3 4; PlayClick; TimerTick; ResetClick]
                        loaded).
Proof.
  destruct (settled_invariant 500 500) as (Hinit & Hstep & Hrun).
  split; [reflexivity|]. split; [|split].
  - apply Hinit. reflexivity.
  - apply Hstep. exact settled_blinker.
  - apply Hrun. reflexivity.
Defined.

Lemma getNumAliveNeighbors_spec_witness :
  shaped blinker ∧ in_grid 12 12 ∧
  getNumAliveNeighbors 12 12 blinker = (Normal 2, blinker).
Proof.
  split; [exact shaped_blinker|]. split; [exact in_grid_12_12|].
  destruct (getNumAliveNeighbors_spec blinker 12 12 shaped_blinker
              in_grid_12_12) as [Hrun _].
  rewrite Hrun. f_equal.
Defined.

Lemma changeTile_flips_witness :
  shaped loaded ∧
  mousePositionToTile 500 500 (inject_Z 250) (inject_Z 250) = Tile 12 12 ∧
  in_grid 12 12 ∧
  ∃ s', changeTile 500 500 (MouseEvent (inject_Z 250) (inject_Z 250)) loaded
          = (Normal tt, s') ∧ cell s' 12 12 = Some ALIVE.
Proof.
  split; [exact shaped_loaded|]. split; [reflexivity|].
  split; [exact in_grid_12_12|].
  destruct (changeTile_flips 500 500 loaded
              (MouseEvent (inject_Z 250) (inject_Z 250)) 12 12
              shaped_loaded eq_refl in_grid_12_12) as [_ Hpaused].
  destruct (Hpaused eq_refl) as [(s' & Hrun & Hdead & _) _].
  exists s'. split; [exact Hrun|]. apply Hdead. by vm_compute.
Defined.

Lemma clearBoard_resets_witness :
  shaped blinker ∧
  ∃ s', clearBoard 500 500 blinker = (Normal tt, s') ∧
        (∀ x y, in_grid x y → cell s' x y = Some DEAD) ∧
        isPlaying s' = false.
Proof.
  split; [exact shaped_blinker|].
  exact (clearBoard_resets 500 500 blinker shaped_blinker).
Defined.

Lemma playGame_paused_noop_witness :
  isPlaying loaded = false ∧ playGame 500 500 loaded = (Normal tt, loaded).
Proof.
  split; [reflexivity|]. apply (playGame_paused_noop 500 500 loaded).
  reflexivity.
Defined.

Lemma isTileAlive_spec_witness :
  shaped blinker ∧ in_grid 12 12 ∧
  ∃ b, isTileAlive 12 12 blinker = (Normal b, blinker) ∧
    (b = true ↔ cell blinker 12 12 = Some ALIVE ∨
                cell blinker 12 12 = Some PENDING_DEAD) ∧
    (cell blinker 12 12 = Some PENDING_ALIVE → b = false).
Proof.
  split; [exact shaped_blinker|]. split; [exact in_grid_12_12|].
  exact (isTileAlive_spec blinker 12 12 shaped_blinker in_grid_12_12).
Defined.

Lemma setTile_unchecked_witness :
  shaped loaded ∧
  (∃ s', setTile 500 500 0 25 ALIVE loaded = (Normal tt, s') ∧
         board_get 0 25 s' = (Normal (Some ALIVE), s')) ∧
  setTile 500 500 25 0 ALIVE loaded = (Throw TypeError, loaded).
Proof.
  split; [exact shaped_loaded|].
  destruct (setTile_unchecked 500 500 loaded 0 25 ALIVE shaped_loaded)
    as (Hin & _ & _).
  destruct (setTile_unchecked 500 500 loaded 25 0 ALIVE shaped_loaded)
    as (_ & Hout & _).
  split.
  - destruct Hin as [_ (s' & Hrun & Hget & _)]; [by vm_compute|].
    exists s'. split; [exact Hrun|exact Hget].
  - apply Hout. unfold NUM_TILES_WIDE. lia.
Defined.

Lemma changeTile_unclamped_witness :
  shaped loaded ∧ isPlaying loaded = false ∧
  in_grid (xPos (mousePositionToTile 500 500 (inject_Z 250) (inject_Z 250)))
          (yPos (mousePositionToTile 500 500 (inject_Z 250) (inject_Z 250))) ∧
  (∃ s', changeTile 500 500 (MouseEvent (inject_Z 250) (inject_Z 250)) loaded
           = (Normal tt, s') ∧ cell s' 12 12 = Some ALIVE) ∧
  changeTile 500 500 (MouseEvent (inject_Z (-1)) (inject_Z 0)) loaded =
    (Throw TypeError, loaded).
Proof.
  split; [exact shaped_loaded|]. split; [reflexivity|].
  split; [exact in_grid_12_12|].
  destruct (changeTile_unclamped 500 500 (inject_Z 250) (inject_Z 250) loaded
              shaped_loaded eq_refl) as (Hin & _ & _).
  destruct (changeTile_unclamped 500 500 (inject_Z (-1)) (inject_Z 0) loaded
              shaped_loaded eq_refl) as (_ & _ & Hout).
  split.
  - destruct (Hin in_grid_12_12) as (s' & Hrun & _ & Hc & _).
    exists s'. split; [exact Hrun|exact Hc].
  - apply Hout. vm_compute. intros [H _]. by apply H.
Defined.

Lemma playGame_deterministic_witness :
  board blinker = board blinker_repainted ∧
  isPlaying blinker = isPlaying blinker_repainted ∧
  board (snd (playGame 500 500 blinker)) =
  board (snd (playGame 500 500 blinker_repainted)).
Proof.
  split; [reflexivity|]. split; [reflexivity|].
  apply (playGame_deterministic 500 500 blinker blinker_repainted);
    reflexivity.
Defined.

(** ** Where the claims as worded fail *)

(** C4 as worded: [changeTile] is not the only way the grid changes
    while the game is paused, the reset button clears it as well. *)
Lemma reset_mutates_while_paused :
  ¬ (∀ c s, settled s → isPlaying s = false →
       (∃ x y, in_grid x y ∧ cell (dispatch 500 500 c s) x y ≠ cell s x y) →
       ∃ e, c = MouseDown e).
Proof.
  intros Hclaim.
  destruct (Hclaim ResetClick (dispatch 500 500 (click 12 12) loaded))
    as [e He]; [| |exists 12, 12|discriminate He].
  - apply settledb_sound. by vm_compute.
  - by vm_compute.
  - split; [exact in_grid_12_12|]. by vm_compute.
Qed.

(** C8 as worded: outside the grid the accessors do not always fail.
    Row 25 of column 0 is written and read without any error. *)
Lemma setTile_out_of_grid_succeeds :
  ¬ in_grid 0 25 ∧
  fst (board_get 0 25 loaded) = Normal None ∧
  fst (setTile 500 500 0 25 ALIVE loaded) = Normal tt ∧
  cell (snd (setTile 500 500 0 25 ALIVE loaded)) 0 25 = Some ALIVE.
Proof.
  split; [|by vm_compute].
  rewrite <- in_gridb_spec. by vm_compute.
Qed.

(** C9 as worded: a click just below the canvas is neither clamped nor
    rejected; it is sent to row 25 and [changeTile] writes that row. *)
Lemma click_below_canvas_reaches_board :
  let t := mousePositionToTile 500 500 (inject_Z 0) (inject_Z 500) in
  let r := changeTile 500 500 (MouseEvent (inject_Z 0) (inject_Z 500)) loaded in
  t = Tile 0 25 ∧ ¬ in_grid (xPos t) (yPos t) ∧
  isPlaying loaded = false ∧ cell loaded 0 25 = None ∧
  fst r = Normal tt ∧
  writes (snd r) = writes loaded ++ [(0, 25, DEAD)] ∧
  cell (snd r) 0 25 = Some DEAD.
Proof.
  split; [reflexivity|]. split; [|by vm_compute].
  rewrite <- in_gridb_spec. by vm_compute.
Qed.

(** ** Instances of the further properties *)

(** A block of two by two tiles, the game playing. *)
Definition block : state :=
  run_commands 500 500
    [click 5 5; click 5 6; click 6 5; click 6 6; PlayClick] loaded.

(** The loaded board with one tile left pending. *)
Definition marked : state := snd (setTile 500 500 3 3 PENDING_ALIVE loaded).

Lemma shaped_marked : shaped marked.
Proof. by vm_compute. Qed.

Lemma stable_block : stable block.
Proof. apply stableb_sound. by vm_compute. Qed.

Lemma playOrPause_toggles_witness :
  label_ok loaded ∧ snd (playOrPause (snd (playOrPause loaded))) = loaded.
Proof.
  split; [reflexivity|].
  destruct (playOrPause_toggles loaded) as (s' & Hrun & _ & _ & _ & _ & _ & H).
  rewrite Hrun. simpl. apply H. reflexivity.
Defined.

Lemma label_invariant_witness :
  board blank = new_board ∧ shaped blinker ∧ label_ok blinker ∧
  label_ok (dispatch 500 500 ResetClick blinker) ∧
  label_ok (run_commands 500 500 [PlayClick; TimerTick; click 1 1] loaded).
Proof.
  destruct (label_invariant 500 500) as (_ & Hstep & Hrun).
  split; [reflexivity|]. split; [exact shaped_blinker|].
  split; [reflexivity|]. split.
  - apply Hstep; [exact shaped_blinker|reflexivity].
  - apply Hrun. reflexivity.
Defined.

Lemma handler_throws_only_off_board_witness :
  shaped loaded ∧
  shaped (dispatch 500 500 (MouseDown (MouseEvent (inject_Z 500) 0)) loaded) ∧
  ∀ e, fst (handler 500 500 TimerTick loaded) ≠ Throw e.
Proof.
  split; [exact shaped_loaded|]. split.
  - apply (handler_throws_only_off_board 500 500), shaped_loaded.
  - intros e He.
    destruct (handler_throws_only_off_board 500 500 TimerTick loaded
                shaped_loaded) as [_ H].
    destruct (H e He) as (ev & Hc & _). discriminate Hc.
Defined.

Lemma refreshBoard_resolves_witness :
  shaped marked ∧ cell marked 3 3 = Some PENDING_ALIVE ∧
  ∃ s', refreshBoard 500 500 marked = (Normal tt, s') ∧
        cell s' 3 3 = Some ALIVE ∧ no_pending s'.
Proof.
  split; [exact shaped_marked|]. split; [by vm_compute|].
  destruct (refreshBoard_resolves 500 500 marked shaped_marked)
    as (s' & Hrun & Hc & Hn & _).
  exists s'. split; [exact Hrun|]. split; [|exact Hn].
  rewrite Hc. by vm_compute.
Defined.

Lemma refreshBoard_idempotent_witness :
  shaped marked ∧
  refreshBoard 500 500 (snd (refreshBoard 500 500 marked)) =
    (Normal tt, snd (refreshBoard 500 500 marked)).
Proof.
  split; [exact shaped_marked|].
  apply (refreshBoard_idempotent 500 500 marked shaped_marked).
Defined.

Lemma playGame_still_life_witness :
  stable block ∧ isPlaying block = true ∧
  playGame 500 500 block = (Normal tt, block).
Proof.
  split; [exact stable_block|]. split; [reflexivity|].
  apply (playGame_still_life 500 500 block stable_block).
Defined.

Lemma playGame_paints_changes_witness :
  settled blinker ∧ isPlaying blinker = true ∧
  ∃ s', playGame 500 500 blinker = (Normal tt, s') ∧
    painted s' =
      painted blinker ++ (all_cells ≫= λ p, repaint 500 500 blinker s' p.1 p.2).
Proof.
  split; [exact settled_blinker|]. split; [reflexivity|].
  destruct (playGame_paints_changes 500 500 blinker settled_blinker eq_refl)
    as (s' & Hrun & Hd & _).
  exists s'. split; [exact Hrun|exact Hd].
Defined.

Example blinker_paints_four :
  let s' := snd (playGame 500 500 blinker) in
  all_cells ≫= (λ p, repaint 500 500 blinker s' p.1 p.2) =
  [ tile_rect 500 500 11 12 "yellow"; tile_rect 500 500 12 11 "black";
    tile_rect 500 500 12 13 "black"; tile_rect 500 500 13 12 "yellow" ].
Proof. by vm_compute. Qed.

Lemma clearBoard_repaints_witness :
  shaped blinker ∧
  ∃ s', clearBoard 500 500 blinker = (Normal tt, s') ∧
        length (painted s') = (length (painted blinker) + 625)%nat.
Proof.
  split; [exact shaped_blinker|].
  destruct (clearBoard_repaints 500 500 blinker shaped_blinker)
    as (s' & Hrun & _ & _ & Hd & Hlen & _).
  exists s'. split; [exact Hrun|].
  by rewrite Hd, length_app, length_fmap, Hlen.
Defined.

Lemma getNumAliveNeighbors_guarded_witness :
  shaped blinker ∧ Z.abs (-7) ≤ 2 ^ 53 - 2 ∧ Z.abs 30 ≤ 2 ^ 53 - 2 ∧
  getNumAliveNeighbors (-7) 30 blinker = (Normal 0, blinker) ∧
  isTileAlive 25 0 blinker = (Throw TypeError, blinker).
Proof.
  split; [exact shaped_blinker|]. split; [by vm_compute|].
  split; [by vm_compute|].
  destruct (getNumAliveNeighbors_guarded blinker (-7) 30 shaped_blinker)
    as [(n & Hrun & _ & Hfar) _]; [by vm_compute..|].
  destruct (getNumAliveNeighbors_guarded blinker 25 0 shaped_blinker)
    as [_ Hthrow]; [by vm_compute..|].
  split.
  - rewrite Hrun, Hfar; [reflexivity|]. left. reflexivity.
  - apply Hthrow. unfold NUM_TILES_WIDE. lia.
Defined.

Lemma changeTile_twice_witness :
  shaped loaded ∧ isPlaying loaded = false ∧
  ∃ s1 s2,
    changeTile 500 500 (MouseEvent (inject_Z 250) (inject_Z 250)) loaded
      = (Normal tt, s1) ∧
    changeTile 500 500 (MouseEvent (inject_Z 250) (inject_Z 250)) s1
      = (Normal tt, s2) ∧
    board s1 ≠ board loaded ∧ board s2 = board loaded ∧ isPlaying s2 = false.
Proof.
  split; [exact shaped_loaded|]. split; [reflexivity|].
  apply (changeTile_twice 500 500 loaded
           (MouseEvent (inject_Z 250) (inject_Z 250)) shaped_loaded eq_refl).
  - by vm_compute.
  - left. by vm_compute.
Defined.

Lemma setTile_paints_witness :
  shaped loaded ∧
  ∃ s', setTile 500 500 3 3 PENDING_DEAD loaded = (Normal tt, s') ∧
        cell s' 3 3 = Some PENDING_DEAD ∧ painted s' = painted loaded.
Proof.
  split; [exact shaped_loaded|].
  destruct (setTile_paints 500 500 loaded 3 3 PENDING_DEAD shaped_loaded)
    as (s' & Hrun & Hc & _ & _ & _ & _ & Hp); [by vm_compute|].
  exists s'. split; [exact Hrun|]. split; [exact Hc|].
  apply Hp; discriminate.
Defined.

Lemma mousePositionToTile_whole_pixels_witness :
  mousePositionToTile 500 500 (inject_Z 499) (inject_Z 79) = Tile 24 3 ∧
  in_grid (499 / 20) (79 / 20).
Proof.
  destruct (mousePositionToTile_whole_pixels 500 500 20 20 499 79)
    as (_ & Hin & Hback); [by vm_compute..|].
  split.
  - apply Hback; by vm_compute.
  - apply Hin; by vm_compute.
Defined.

Lemma tile_rect_whole_pixels_witness :
  in_grid 24 24 ∧
  (rect_x (tile_rect 500 500 24 24 "black") == inject_Z (24 * 20))%Q ∧
  (rect_w (tile_rect 500 500 24 24 "black") == inject_Z (20 - 1))%Q.
Proof.
  split; [by apply in_gridb_spec|].
  destruct (tile_rect_whole_pixels 500 500 20 20 24 24 "black")
    as (Hx & _ & Hw & _);
    [by vm_compute..|by apply in_gridb_spec|].
  split; [exact Hx|exact Hw].
Defined.
